(** * Driver layer of the frontend: camera driver selection and lifecycle
      (camera/camera_driver.c) and the OpenGL video driver (gl.c).

    The C code is embedded shallowly.  Global variables become fields of an
    explicit world record that every function takes and returns; calls into
    external libraries (GL, GLFW, Cg, the logger, the camera backends, the
    core's callbacks) are recorded, in order, in a trace held by the world.
    The C types [float] and [double] are IEEE 754 binary32 and binary64,
    computed with the reference implementation of the standard library
    ([SpecFloat]), every operation rounding to nearest-even in the type the
    C usual arithmetic conversions give it (FLT_EVAL_METHOD 0). *)

From Stdlib Require Import ZArith List String Ascii Bool Lia.
From Stdlib Require Import Floats.SpecFloat.
Import ListNotations.

Local Open Scope Z_scope.

(* ================================================================== *)
(** ** IEEE 754 arithmetic for [float] and [double] *)

Module IEEE.

(** A [float] is a binary32 value, a [double] a binary64 value; both are
    kept in canonical form by the operations below. *)
Definition float := spec_float.
Definition double := spec_float.

Definition f32_mul : float -> float -> float := SFmul 24 128.
Definition f32_div : float -> float -> float := SFdiv 24 128.

Definition f64_add : double -> double -> double := SFadd 53 1024.
Definition f64_sub : double -> double -> double := SFsub 53 1024.
Definition f64_mul : double -> double -> double := SFmul 53 1024.
Definition f64_div : double -> double -> double := SFdiv 53 1024.

(** Integer to floating conversions. *)
Definition f32_of_int (z : Z) : float := binary_normalize 24 128 z 0 false.
Definition f64_of_int (z : Z) : double := binary_normalize 53 1024 z 0 false.

(** [float] to [double] is exact; [double] to [float] rounds. *)
Definition f64_of_f32 (x : float) : double :=
  match x with
  | S754_finite s m e => binary_round 53 1024 s m e
  | _ => x
  end.

Definition f32_of_f64 (x : double) : float :=
  match x with
  | S754_finite s m e => binary_round 24 128 s m e
  | _ => x
  end.

Definition INT_MAX : Z := 2147483647.
Definition INT_MIN : Z := -2147483648.

Definition in_int_range (z : Z) : bool := (INT_MIN <=? z) && (z <=? INT_MAX).

(** The integer part of a finite value, discarding the fraction. *)
Definition integer_part (s : bool) (m : positive) (e : Z) : Z :=
  cond_Zopp s (if 0 <=? e then Zpos m * 2 ^ e else Zpos m / 2 ^ (- e)).

(** The cast [(int)x]: truncation toward zero.  The C standard leaves the
    cast undefined for NaN, infinities and values outside the range of
    [int]; those give [None]. *)
Definition int_of_float (x : spec_float) : option Z :=
  match x with
  | S754_zero _ => Some 0
  | S754_finite s m e =>
      let z := integer_part s m e in
      if in_int_range z then Some z else None
  | _ => None
  end.

(** Rounding to the nearest integer, halves away from zero (C's [lround]);
    used only by the specification-side algorithm. *)
Definition round_of_float (x : spec_float) : option Z :=
  match x with
  | S754_zero _ => Some 0
  | S754_finite s m e =>
      let twice := if 0 <=? e then Zpos m * 2 ^ (e + 1)
                   else Zpos m / 2 ^ (- e - 1) in
      let z := cond_Zopp s ((twice + 1) / 2) in
      if in_int_range z then Some z else None
  | _ => None
  end.

(** The floating constants the code writes; each is exact. *)
Definition dbl_4_0 : double := f64_of_int 4.
Definition dbl_1_0 : double := f64_of_int 1.
Definition dbl_2_0 : double := f64_of_int 2.
Definition dbl_0_5 : double := S754_finite false 4503599627370496 (-53).
Definition dbl_1000000_0 : double := f64_of_int 1000000.

(** Two's complement wrap-around of a 32-bit [int]. *)
Definition wrap_int (z : Z) : Z := (z - INT_MIN) mod 2 ^ 32 + INT_MIN.

End IEEE.

(* ================================================================== *)
(** ** gl.c: the OpenGL video driver *)

Module GL.
Import IEEE.

Record timeval := { tv_sec : Z; tv_usec : Z }.

Inductive matrix_mode := GL_PROJECTION | GL_MODELVIEW.
Inductive tex_filter_t := GL_LINEAR | GL_NEAREST.

(** What [glfwSetWindowTitle] is given: a literal, or the buffer that
    [snprintf] fills from "SSNES || FPS: %6.1f || Frames: %d". *)
Inductive title :=
| title_literal (s : string)
| title_fps (fps : float) (frames : Z).

(** The calls into GL, GLFW and Cg, with the arguments the code passes. *)
Inductive gl_call :=
| glMatrixMode (mode : matrix_mode)
| glLoadIdentity
| glViewport (x y width height : Z)
| glOrtho (left right bottom top near far : Z)
| cgGLSetStateMatrixParameter (param : Z)
| glClear_COLOR_BUFFER_BIT
| cgGLSetParameter2f (param : Z) (x y : float)
| glPixelStorei_UNPACK_ROW_LENGTH (n : Z)
| glTexImage2D (width height : Z) (pixels : list Z)
| glDrawArrays_QUADS (first count : Z)
| glfwSetWindowTitle (t : title)
| glfwSwapBuffers
| glfwSwapInterval (interval : Z)
| glfwInit
| glfwOpenWindow (width height : Z) (fullscreen : bool)
| glfwTerminate
| glfwSetWindowSizeCallback_resize
| glTexParameteri_filter (f : tex_filter_t)
| glDeleteTextures (texture : Z)
| gl_setup (call : string)
| cg_call (call : string).

(** [typedef struct gl]. *)
Record gl_t := {
  vsync : bool;
  cg_video_size : Z;
  cg_texture_size : Z;
  texture : Z;
  tex_filter : tex_filter_t
}.

(** [video_info_t] of driver.h. *)
Record video_info_t := {
  vi_width : Z;
  vi_height : Z;
  vi_fullscreen : bool;
  vi_vsync : bool;
  vi_force_aspect : bool;
  vi_smooth : bool
}.

(** The file's static variables, the trace of library calls (oldest
    first) and the number of [gettimeofday] readings taken so far. *)
Record world := {
  keep_aspect : bool;
  cg_mvp_matrix : Z;
  frames : Z;
  tv : timeval;
  ticks : nat;
  calls : list gl_call
}.

(** What the environment decides: the build flag, the clock, and the
    results of the fallible library calls of [gl_init]. *)
Record env := {
  HAVE_CG : bool;
  clock : nat -> timeval;
  malloc_ok : bool;
  open_window_res : Z;
  gen_texture : Z;
  cg_context_ok : bool;
  cg_profiles_ok : bool;
  cg_programs_ok : bool;
  cg_param_video_size : Z;
  cg_param_texture_size : Z;
  cg_param_mvp : Z
}.

(** The statics as the C initialisers leave them. *)
Definition initial_world : world :=
  {| keep_aspect := true; cg_mvp_matrix := 0; frames := 0;
     tv := {| tv_sec := 0; tv_usec := 0 |}; ticks := 0; calls := [] |}.

Definition emit (c : gl_call) (w : world) : world :=
  {| keep_aspect := keep_aspect w; cg_mvp_matrix := cg_mvp_matrix w;
     frames := frames w; tv := tv w; ticks := ticks w;
     calls := calls w ++ [c] |}.

Definition emits (cs : list gl_call) (w : world) : world :=
  fold_left (fun w c => emit c w) cs w.

Definition set_keep_aspect (b : bool) (w : world) : world :=
  {| keep_aspect := b; cg_mvp_matrix := cg_mvp_matrix w;
     frames := frames w; tv := tv w; ticks := ticks w; calls := calls w |}.

Definition set_cg_mvp_matrix (p : Z) (w : world) : world :=
  {| keep_aspect := keep_aspect w; cg_mvp_matrix := p;
     frames := frames w; tv := tv w; ticks := ticks w; calls := calls w |}.

Definition set_frames (n : Z) (w : world) : world :=
  {| keep_aspect := keep_aspect w; cg_mvp_matrix := cg_mvp_matrix w;
     frames := n; tv := tv w; ticks := ticks w; calls := calls w |}.

Definition set_tv (t : timeval) (w : world) : world :=
  {| keep_aspect := keep_aspect w; cg_mvp_matrix := cg_mvp_matrix w;
     frames := frames w; tv := t; ticks := ticks w; calls := calls w |}.

(** [gettimeofday(&t, NULL)]: the next reading of the clock. *)
Definition gettimeofday (E : env) (w : world) : timeval * world :=
  (clock E (ticks w),
   {| keep_aspect := keep_aspect w; cg_mvp_matrix := cg_mvp_matrix w;
      frames := frames w; tv := tv w; ticks := S (ticks w);
      calls := calls w |}).

(** *** resize *)

(** [resize(width, height)], the window-size callback.  [None] stands
    for the undefined behaviour of a cast to [int] (or to [GLint],
    [GLsizei]) of a value that has no [int]: a zero height makes the
    aspect infinite or NaN. *)
Definition resize (width height : Z) (w : world) : option world :=
  let w := emit (glMatrixMode GL_PROJECTION) w in
  let w := emit glLoadIdentity w in
  let after_viewport :=
    if keep_aspect w then
      let desired_aspect := f32_of_f64 (f64_div dbl_4_0 (f64_of_int 3)) in
      let device_aspect := f32_div (f32_of_int width) (f32_of_int height) in
      match int_of_float (f32_mul device_aspect (f32_of_int 1000)),
            int_of_float (f32_mul desired_aspect (f32_of_int 1000)) with
      | Some device_1000, Some desired_1000 =>
          if device_1000 >? desired_1000 then
            let delta :=
              f32_of_f64
                (f64_add
                   (f64_div
                      (f64_sub
                         (f64_of_f32 (f32_div desired_aspect device_aspect))
                         dbl_1_0)
                      dbl_2_0)
                   dbl_0_5) in
            match int_of_float
                    (f64_mul (f64_of_int width)
                             (f64_sub dbl_0_5 (f64_of_f32 delta))),
                  int_of_float
                    (f64_mul (f64_mul dbl_2_0 (f64_of_int width))
                             (f64_of_f32 delta)) with
            | Some x, Some vw => Some (emit (glViewport x 0 vw height) w)
            | _, _ => None
            end
          else if device_1000 <? desired_1000 then
            let delta :=
              f32_of_f64
                (f64_add
                   (f64_div
                      (f64_sub
                         (f64_of_f32 (f32_div device_aspect desired_aspect))
                         dbl_1_0)
                      dbl_2_0)
                   dbl_0_5) in
            match int_of_float
                    (f64_mul (f64_of_int height)
                             (f64_sub dbl_0_5 (f64_of_f32 delta))),
                  int_of_float
                    (f64_mul (f64_mul dbl_2_0 (f64_of_int height))
                             (f64_of_f32 delta)) with
            | Some y, Some vh => Some (emit (glViewport 0 y width vh) w)
            | _, _ => None
            end
          else Some (emit (glViewport 0 0 width height) w)
      | _, _ => None
      end
    else Some (emit (glViewport 0 0 width height) w) in
  match after_viewport with
  | Some w =>
      let w := emit (glOrtho 0 1 0 1 (-1) 1) w in
      let w := emit (glMatrixMode GL_MODELVIEW) w in
      let w := emit glLoadIdentity w in
      Some (emit (cgGLSetStateMatrixParameter (cg_mvp_matrix w)) w)
  | None => None
  end.

(** *** FPS accounting *)

(** The local [float time] of [tv_to_fps]: the difference of the seconds
    plus the difference of the microseconds over a million, added in
    [double] and stored in a [float]. *)
Definition elapsed_seconds (tv new_tv : timeval) : float :=
  f32_of_f64
    (f64_add (f64_of_int (tv_sec new_tv - tv_sec tv))
             (f64_div (f64_of_int (tv_usec new_tv - tv_usec tv))
                      dbl_1000000_0)).

Definition tv_to_fps (tv new_tv : timeval) (frames : Z) : float :=
  let time := elapsed_seconds tv new_tv in
  f32_div (f32_of_int frames) time.

(** [show_fps]: [frames] and [tv] are its static locals. *)
Definition show_fps (E : env) (w : world) : world :=
  let w :=
    if frames w =? 0 then
      let '(t, w) := gettimeofday E w in set_tv t w
    else w in
  let w :=
    if (Z.rem (frames w) 180 =? 0) && (frames w >? 0) then
      let '(new_tv, w) := gettimeofday E w in
      let tmp_tv := {| tv_sec := tv_sec (tv w); tv_usec := tv_usec (tv w) |} in
      let '(t, w) := gettimeofday E w in
      let w := set_tv t w in
      let fps := tv_to_fps tmp_tv new_tv 180 in
      emit (glfwSetWindowTitle (title_fps fps (frames w))) w
    else w in
  set_frames (wrap_int (frames w + 1)) w.

(** *** The video driver's operations *)

Definition gl_frame (E : env) (gl : gl_t) (frame : list Z)
    (width height pitch : Z) (w : world) : bool * world :=
  let w := emit glClear_COLOR_BUFFER_BIT w in
  let w :=
    if HAVE_CG E then
      let w := emit (cgGLSetParameter2f (cg_video_size gl)
                       (f32_of_int width) (f32_of_int height)) w in
      emit (cgGLSetParameter2f (cg_texture_size gl)
              (f32_of_int width) (f32_of_int height)) w
    else w in
  let w := emit (glPixelStorei_UNPACK_ROW_LENGTH (Z.shiftr pitch 1)) w in
  let w := emit (glTexImage2D width height frame) w in
  let w := emit (glDrawArrays_QUADS 0 4) w in
  let w := show_fps E w in
  let w := emit glfwSwapBuffers w in
  (true, w).

Definition gl_free (E : env) (gl : gl_t) (w : world) : world :=
  let w := if HAVE_CG E then emit (cg_call "cgDestroyContext") w else w in
  let w := emit (gl_setup "glDisableClientState(GL_VERTEX_ARRAY)") w in
  let w := emit (gl_setup "glDisableClientState(GL_TEXTURE_COORD_ARRAY)") w in
  let w := emit (glDeleteTextures (texture gl)) w in
  emit glfwTerminate w.

Definition gl_set_nonblock_state (gl : gl_t) (state : bool) (w : world)
    : world :=
  if vsync gl then
    if state then emit (glfwSwapInterval 0) w
    else emit (glfwSwapInterval 1) w
  else w.

(** [gl_init]: [None] is the NULL it returns on failure. *)
Definition gl_init (E : env) (video : video_info_t) (w : world)
    : option gl_t * world :=
  if negb (malloc_ok E) then (None, w)
  else
    let w := set_keep_aspect (vi_force_aspect video) w in
    let filter := if vi_smooth video then GL_LINEAR else GL_NEAREST in
    let w := emit glfwInit w in
    let w := emit (glfwOpenWindow (vi_width video) (vi_height video)
                     (vi_fullscreen video)) w in
    if open_window_res E =? 0 then (None, emit glfwTerminate w)
    else
      let w := emit glfwSetWindowSizeCallback_resize w in
      let w :=
        if vi_vsync video then emit (glfwSwapInterval 1) w
        else emit (glfwSwapInterval 0) w in
      let w :=
        emits [gl_setup "glEnable(GL_TEXTURE_2D)";
               gl_setup "glDisable(GL_DITHER)";
               gl_setup "glDisable(GL_DEPTH_TEST)";
               gl_setup "glColor3f(1, 1, 1)";
               gl_setup "glClearColor(0, 0, 0, 0)";
               glfwSetWindowTitle (title_literal "SSNES");
               glMatrixMode GL_MODELVIEW;
               glLoadIdentity;
               gl_setup "glGenTextures";
               gl_setup "glBindTexture";
               gl_setup "glTexParameteri(GL_TEXTURE_WRAP_S)";
               gl_setup "glTexParameteri(GL_TEXTURE_WRAP_T)";
               glTexParameteri_filter filter;
               glTexParameteri_filter filter;
               gl_setup "glEnableClientState(GL_VERTEX_ARRAY)";
               gl_setup "glEnableClientState(GL_TEXTURE_COORD_ARRAY)";
               gl_setup "glVertexPointer";
               gl_setup "glTexCoordPointer"] w in
      if HAVE_CG E then
        let w := emit (cg_call "cgCreateContext") w in
        if negb (cg_context_ok E) then (None, w)
        else
          let w := emit (cg_call "cgGLGetLatestProfile") w in
          let w := emit (cg_call "cgGLGetLatestProfile") w in
          if negb (cg_profiles_ok E) then (None, w)
          else
            let w :=
              emits [cg_call "cgGLSetOptimalOptions";
                     cg_call "cgGLSetOptimalOptions";
                     cg_call "cgCreateProgramFromFile";
                     cg_call "cgCreateProgramFromFile"] w in
            if negb (cg_programs_ok E) then
              (None, emit (cg_call "cgGetError") w)
            else
              let w :=
                emits [cg_call "cgGLLoadProgram";
                       cg_call "cgGLLoadProgram";
                       cg_call "cgGLEnableProfile";
                       cg_call "cgGLEnableProfile";
                       cg_call "cgGLBindProgram";
                       cg_call "cgGLBindProgram"] w in
              let w := set_cg_mvp_matrix (cg_param_mvp E) w in
              let w :=
                emit (cgGLSetStateMatrixParameter (cg_mvp_matrix w)) w in
              (Some {| vsync := vi_vsync video;
                       cg_video_size := cg_param_video_size E;
                       cg_texture_size := cg_param_texture_size E;
                       texture := gen_texture E;
                       tex_filter := filter |}, w)
      else
        (Some {| vsync := vi_vsync video;
                 cg_video_size := 0;
                 cg_texture_size := 0;
                 texture := gen_texture E;
                 tex_filter := filter |}, w).

(** *** Observations on a trace *)

(** The swap interval in force: the argument of the latest
    [glfwSwapInterval]. *)
Definition latest_interval (acc : option Z) (c : gl_call) : option Z :=
  match c with
  | glfwSwapInterval n => Some n
  | _ => acc
  end.

Definition swap_interval (w : world) : option Z :=
  fold_left latest_interval (calls w) None.

(** The viewports set, oldest first. *)
Definition viewports (cs : list gl_call) : list gl_call :=
  filter (fun c => match c with glViewport _ _ _ _ => true | _ => false end)
         cs.

(** The FPS titles published, oldest first, each with the frame count
    printed next to it. *)
Fixpoint published (cs : list gl_call) : list (float * Z) :=
  match cs with
  | [] => []
  | glfwSetWindowTitle (title_fps fps n) :: cs => (fps, n) :: published cs
  | _ :: cs => published cs
  end.

(** What one call adds to the published titles. *)
Definition published_by (c : gl_call) : list (float * Z) :=
  match c with
  | glfwSetWindowTitle (title_fps fps n) => [(fps, n)]
  | _ => []
  end.

(** The sample that closes the window numbered [j] (from 0), for a clock
    read [t0] times before the first frame: 180 frames over the time
    between the reading that opened the window and the reading that
    closes it, printed with the frame count [180 * (j + 1)]. *)
Definition window_sample (E : env) (t0 j : nat) : float * Z :=
  (f32_div (f32_of_int 180)
     (elapsed_seconds (clock E (t0 + 2 * j)) (clock E (t0 + 2 * j + 1))),
   180 * (Z.of_nat j + 1)).

(** The calls [resize] makes around a viewport [v]. *)
Definition resize_calls (v : gl_call) (w : world) : world :=
  emits [glMatrixMode GL_PROJECTION; glLoadIdentity; v;
         glOrtho 0 1 0 1 (-1) 1; glMatrixMode GL_MODELVIEW; glLoadIdentity;
         cgGLSetStateMatrixParameter (cg_mvp_matrix w)] w.

(** One frame submission's arguments, and a run of submissions. *)
Record submission := {
  sub_frame : list Z;
  sub_width : Z;
  sub_height : Z;
  sub_pitch : Z
}.

Definition submit (E : env) (gl : gl_t) (s : submission) (w : world)
    : bool * world :=
  gl_frame E gl (sub_frame s) (sub_width s) (sub_height s) (sub_pitch s) w.

Definition submit_all (E : env) (gl : gl_t) (ss : list submission)
    (w : world) : world :=
  fold_left (fun w s => snd (submit E gl s w)) ss w.

(** The calls of [gl_frame] ahead of [show_fps]. *)
Definition upload_calls (E : env) (gl : gl_t) (s : submission)
    : list gl_call :=
  [glClear_COLOR_BUFFER_BIT]
  ++ (if HAVE_CG E then
        [cgGLSetParameter2f (cg_video_size gl)
           (f32_of_int (sub_width s)) (f32_of_int (sub_height s));
         cgGLSetParameter2f (cg_texture_size gl)
           (f32_of_int (sub_width s)) (f32_of_int (sub_height s))]
      else [])
  ++ [glPixelStorei_UNPACK_ROW_LENGTH (Z.shiftr (sub_pitch s) 1);
      glTexImage2D (sub_width s) (sub_height s) (sub_frame s);
      glDrawArrays_QUADS 0 4].

(** The state after a run of [n] frames from a zero counter. *)
Definition after_frames (E : env) (w0 w : world) (n : nat) : Prop :=
  frames w = Z.of_nat n /\
  ticks w = (ticks w0 + 1 + 2 * ((n - 1) / 180))%nat /\
  tv w = clock E (ticks w0 + 2 * ((n - 1) / 180)) /\
  published (calls w)
  = published (calls w0)
    ++ map (window_sample E (ticks w0)) (seq 0 ((n - 1) / 180)).

(** Whether [gl_init] gets everything it asks the libraries for. *)
Definition all_acquired (E : env) : bool :=
  malloc_ok E
  && negb (open_window_res E =? 0)
  && (negb (HAVE_CG E)
      || (cg_context_ok E && cg_profiles_ok E && cg_programs_ok E)).

(** *** The aspect-lock algorithm as the specification words it *)

(** The viewport of the aspect-lock algorithm, with the conversion of the
    aspects scaled by 1000 to integers left open: the specification
    rounds, [to_int := round_of_float]. *)
Definition aspect_lock_viewport (to_int : float -> option Z)
    (width height : Z) : option gl_call :=
  let desiredAspect := f32_of_f64 (f64_div dbl_4_0 (f64_of_int 3)) in
  let deviceAspect := f32_div (f32_of_int width) (f32_of_int height) in
  let delta_of (ratio : float) : float :=
    f32_of_f64
      (f64_add (f64_div (f64_sub (f64_of_f32 ratio) dbl_1_0) dbl_2_0)
               dbl_0_5) in
  let origin (extent : Z) (delta : float) :=
    int_of_float
      (f64_mul (f64_of_int extent) (f64_sub dbl_0_5 (f64_of_f32 delta))) in
  let size (extent : Z) (delta : float) :=
    int_of_float
      (f64_mul (f64_mul dbl_2_0 (f64_of_int extent)) (f64_of_f32 delta)) in
  match to_int (f32_mul deviceAspect (f32_of_int 1000)),
        to_int (f32_mul desiredAspect (f32_of_int 1000)) with
  | Some device, Some desired =>
      match device ?= desired with
      | Gt =>
          let delta := delta_of (f32_div desiredAspect deviceAspect) in
          match origin width delta, size width delta with
          | Some x, Some vw => Some (glViewport x 0 vw height)
          | _, _ => None
          end
      | Lt =>
          let delta := delta_of (f32_div deviceAspect desiredAspect) in
          match origin height delta, size height delta with
          | Some y, Some vh => Some (glViewport 0 y width vh)
          | _, _ => None
          end
      | Eq => Some (glViewport 0 0 width height)
      end
  | _, _ => None
  end.

End GL.

(* ================================================================== *)
(** ** camera/camera_driver.c: camera driver registry and lifecycle *)

Module Camera.

(** A non-NULL [void *] returned by a backend's [init]. *)
Definition handle := Z.

(** [camera_driver_t] of camera_driver.h.  A function pointer the code
    tests before the call is optional; [init] is called untested.  What a
    backend does shows in the trace; [init] and [start] also return. *)
Record camera_driver_t := {
  init : option string -> Z -> Z -> Z -> option handle;
  free : bool;
  start : option (handle -> bool);
  stop : bool;
  poll : bool;
  ident : string
}.

(** The preprocessor symbols that select the registry's entries. *)
Record build := {
  HAVE_V4L2 : bool;
  EMSCRIPTEN : bool;
  ANDROID : bool;
  APPLE : bool
}.

(** The backends, defined in other files. *)
Record backends := {
  camera_v4l2 : camera_driver_t;
  camera_rwebcam : camera_driver_t;
  camera_android : camera_driver_t;
  camera_apple : camera_driver_t;
  camera_null : camera_driver_t
}.

(** [g_settings.camera]. *)
Record camera_settings := {
  driver : string;
  device : string;
  allow : bool;
  width : Z;
  height : Z
}.

(** [g_extern.system.camera_callback]; a callback is present or NULL. *)
Record camera_callback := {
  caps : Z;
  cb_width : Z;
  cb_height : Z;
  initialized : bool;
  deinitialized : bool
}.

(** The calls that leave the file, in the order they are made. *)
Inductive event :=
| RARCH_ERR (msg : string)
| RARCH_LOG_OUTPUT (msg : string)
| RARCH_WARN (msg : string)
| backend_init (id : string) (dev : option string) (caps width height : Z)
| backend_free (id : string) (data : handle)
| backend_start (id : string) (data : handle)
| backend_stop (id : string) (data : handle)
| backend_poll (id : string) (data : handle)
| callback_initialized
| callback_deinitialized.

(** The camera fields of the global [driver], the settings, the core's
    callbacks, the message queue (message, priority, duration) and the
    trace. *)
Record world := {
  camera : option camera_driver_t;
  camera_data : option handle;
  camera_active : bool;
  g_settings : camera_settings;
  callbacks : camera_callback;
  msg_queue : list (string * Z * Z);
  trace : list event
}.

(** How a function that may call [rarch_fail] ends: it returns, or it
    aborts with a code and a message; [Undefined] is a NULL function
    table dereferenced or a loop that leaves the registry. *)
Inductive outcome :=
| Returned (w : world)
| Failed (code : Z) (msg : string) (w : world)
| Undefined.

Definition log (e : event) (w : world) : world :=
  {| camera := camera w; camera_data := camera_data w;
     camera_active := camera_active w; g_settings := g_settings w;
     callbacks := callbacks w; msg_queue := msg_queue w;
     trace := trace w ++ [e] |}.

Definition set_camera (d : option camera_driver_t) (w : world) : world :=
  {| camera := d; camera_data := camera_data w;
     camera_active := camera_active w; g_settings := g_settings w;
     callbacks := callbacks w; msg_queue := msg_queue w;
     trace := trace w |}.

Definition set_camera_data (h : option handle) (w : world) : world :=
  {| camera := camera w; camera_data := h;
     camera_active := camera_active w; g_settings := g_settings w;
     callbacks := callbacks w; msg_queue := msg_queue w;
     trace := trace w |}.

Definition set_camera_active (b : bool) (w : world) : world :=
  {| camera := camera w; camera_data := camera_data w;
     camera_active := b; g_settings := g_settings w;
     callbacks := callbacks w; msg_queue := msg_queue w;
     trace := trace w |}.

Definition msg_queue_push (msg : string) (prio duration : Z) (w : world)
    : world :=
  {| camera := camera w; camera_data := camera_data w;
     camera_active := camera_active w; g_settings := g_settings w;
     callbacks := callbacks w;
     msg_queue := msg_queue w ++ [(msg, prio, duration)];
     trace := trace w |}.

(** The characters the C literals escape. *)
Definition nl : string := String (ascii_of_nat 10) EmptyString.
Definition tab : string := String (ascii_of_nat 9) EmptyString.
Definition dquote : string := String (ascii_of_nat 34) EmptyString.

Section Registry.
Variable B : build.
Variable K : backends.

(** The array [camera_drivers]: the backends compiled in, then the null
    driver, then the NULL sentinel. *)
Definition camera_drivers : list (option camera_driver_t) :=
  (if HAVE_V4L2 B then [Some (camera_v4l2 K)] else []) ++
  (if EMSCRIPTEN B then [Some (camera_rwebcam K)] else []) ++
  (if ANDROID B then [Some (camera_android K)] else []) ++
  (if APPLE B then [Some (camera_apple K)] else []) ++
  [Some (camera_null K); None].

(** The descriptors ahead of the null driver, and all the descriptors
    ahead of the sentinel. *)
Definition compiled_in : list camera_driver_t :=
  (if HAVE_V4L2 B then [camera_v4l2 K] else []) ++
  (if EMSCRIPTEN B then [camera_rwebcam K] else []) ++
  (if ANDROID B then [camera_android K] else []) ++
  (if APPLE B then [camera_apple K] else []).

Definition registered : list camera_driver_t :=
  compiled_in ++ [camera_null K].

(** [camera_drivers[index]]; an index outside the array, which C leaves
    undefined, reads as NULL. *)
Definition camera_driver_find_handle (index : Z)
    : option camera_driver_t :=
  if index <? 0 then None
  else
    match nth_error camera_drivers (Z.to_nat index) with
    | Some drv => drv
    | None => None
    end.

Definition camera_driver_find_ident (index : Z) : option string :=
  match camera_driver_find_handle index with
  | Some drv => Some (ident drv)
  | None => None
  end.

(** The loop of [config_get_camera_driver_options]:
    [for (i = 0; camera_driver_find_handle(i); i++)], appending each
    identifier to [options_l] and growing [options_len].  It is run
    with as many steps as the array has entries. *)
Fixpoint options_loop (fuel : nat) (i : Z) (options_len : Z)
    (options_l : list string) : option (Z * list string) :=
  match fuel with
  | O => None
  | S fuel =>
      match camera_driver_find_handle i with
      | None => Some (options_len, options_l)
      | Some _ =>
          match camera_driver_find_ident i with
          | Some opt =>
              options_loop fuel (i + 1)
                (options_len + Z.of_nat (String.length opt) + 1)
                (options_l ++ [opt])
          | None => None
          end
      end
  end.

(** The string list that [config_get_camera_driver_options] builds. *)
Definition camera_driver_options_list : option (list string) :=
  match options_loop (List.length camera_drivers) 0 0 [] with
  | Some (_, options_l) => Some options_l
  | None => None
  end.

(** Modelled from the spec: [string_list_join_concat] of the string
    list library is not part of this file; as the function's header
    says, the names come out separated by '|'. *)
Definition string_list_join_concat (size : Z) (l : list string)
    (delim : string) : string :=
  let joined := String.concat delim l in
  String.substring 0 (Z.to_nat (size - 1)) joined.

Definition config_get_camera_driver_options : option string :=
  match options_loop (List.length camera_drivers) 0 0 [] with
  | Some (options_len, options_l) =>
      Some (string_list_join_concat options_len options_l "|")
  | None => None
  end.

(** Modelled from the spec: [find_driver_index] lives in driver.c,
    which is not part of these sources.  Given a configured name, it
    scans the registry of the kind from the front and returns the
    index of the first descriptor whose identifier is the name; with
    no match it returns -1. *)
Fixpoint scan_registry (entries : list (option camera_driver_t))
    (i : Z) (drv : string) : Z :=
  match entries with
  | Some d :: rest =>
      if String.eqb drv (ident d) then i
      else scan_registry rest (i + 1) drv
  | _ => -1
  end.

Definition find_driver_index (label drv : string) : Z :=
  if String.eqb label "camera_driver" then
    scan_registry camera_drivers 0 drv
  else -1.

(** The loop of [find_camera_driver] that prints the identifiers:
    [for (d = 0; camera_driver_find_handle(d); d++)]. *)
Fixpoint list_loop (fuel : nat) (d : Z) (w : world) : option world :=
  match fuel with
  | O => None
  | S fuel =>
      match camera_driver_find_handle d with
      | None => Some w
      | Some _ =>
          match camera_driver_find_ident d with
          | Some id =>
              list_loop fuel (d + 1)
                (log (RARCH_LOG_OUTPUT (tab ++ id ++ nl)) w)
          | None => None
          end
      end
  end.

Definition find_camera_driver (w : world) : outcome :=
  let i := find_driver_index "camera_driver" (driver (g_settings w)) in
  if i >=? 0 then Returned (set_camera (camera_driver_find_handle i) w)
  else
    let w :=
      log (RARCH_ERR ("Couldn't find any camera driver named " ++ dquote
                      ++ driver (g_settings w) ++ dquote ++ nl)) w in
    let w := log (RARCH_LOG_OUTPUT ("Available camera drivers are:" ++ nl))
                 w in
    match list_loop (List.length camera_drivers) 0 w with
    | None => Undefined
    | Some w =>
        let w :=
          log (RARCH_WARN
                 ("Going to default to first camera driver..." ++ nl)) w in
        let w := set_camera (camera_driver_find_handle 0) w in
        match camera w with
        | None => Failed 1 "find_camera_driver()" w
        | Some _ => Returned w
        end
    end.

Definition driver_camera_start (w : world) : bool * world :=
  match camera w, camera_data w with
  | Some drv, Some data =>
      match start drv with
      | Some start_fn =>
          if allow (g_settings w) then
            (start_fn data, log (backend_start (ident drv) data) w)
          else
            (false,
             msg_queue_push ("Camera is explicitly disabled." ++ nl)
                            1 180 w)
      | None => (false, w)
      end
  | _, _ => (false, w)
  end.

Definition driver_camera_stop (w : world) : world :=
  match camera w, camera_data w with
  | Some drv, Some data =>
      if stop drv then log (backend_stop (ident drv) data) w else w
  | _, _ => w
  end.

Definition driver_camera_poll (w : world) : world :=
  match camera w, camera_data w with
  | Some drv, Some data =>
      if poll drv then log (backend_poll (ident drv) data) w else w
  | _, _ => w
  end.

Definition init_camera (w : world) : outcome :=
  match camera_data w with
  | Some _ => Returned w
  | None =>
      match find_camera_driver w with
      | Returned w =>
          match camera w with
          | None => Undefined
          | Some drv =>
              let dev :=
                if String.eqb (device (g_settings w)) "" then None
                else Some (device (g_settings w)) in
              let wd :=
                if width (g_settings w) =? 0 then cb_width (callbacks w)
                else width (g_settings w) in
              let ht :=
                if height (g_settings w) =? 0 then cb_height (callbacks w)
                else height (g_settings w) in
              let w :=
                log (backend_init (ident drv) dev (caps (callbacks w))
                                  wd ht) w in
              let w :=
                set_camera_data (init drv dev (caps (callbacks w)) wd ht)
                                w in
              let w :=
                match camera_data w with
                | None =>
                    let w :=
                      log (RARCH_ERR
                             ("Failed to initialize camera driver. "
                              ++ "Will continue without camera." ++ nl))
                          w in
                    set_camera_active false w
                | Some _ => w
                end in
              let w :=
                if initialized (callbacks w) then
                  log callback_initialized w
                else w in
              Returned w
          end
      | stopped => stopped
      end
  end.

Definition uninit_camera (w : world) : world :=
  let w :=
    match camera_data w, camera w with
    | Some data, Some drv =>
        let w :=
          if deinitialized (callbacks w) then
            log callback_deinitialized w
          else w in
        if free drv then log (backend_free (ident drv) data) w else w
    | _, _ => w
    end in
  set_camera_data None w.

End Registry.

(** The states the camera operations reach from a state with no handle. *)
Inductive reachable (B : build) (K : backends) : world -> Prop :=
| reach_start (w : world) :
    camera_data w = None -> reachable B K w
| reach_find (w w' : world) :
    reachable B K w -> find_camera_driver B K w = Returned w' ->
    reachable B K w'
| reach_init (w w' : world) :
    reachable B K w -> init_camera B K w = Returned w' ->
    reachable B K w'
| reach_uninit (w : world) :
    reachable B K w -> reachable B K (uninit_camera w)
| reach_start_camera (w : world) :
    reachable B K w -> reachable B K (snd (driver_camera_start w))
| reach_stop (w : world) :
    reachable B K w -> reachable B K (driver_camera_stop w)
| reach_poll (w : world) :
    reachable B K w -> reachable B K (driver_camera_poll w).

(** The calls of a backend's [init] in a trace, oldest first. *)
Definition backend_inits (t : list event) : list event :=
  filter (fun e => match e with
                   | backend_init _ _ _ _ _ => true
                   | _ => false
                   end) t.

(** How many times a backend's [init] was called in a trace. *)
Definition count_backend_init (t : list event) : nat :=
  List.length
    (filter (fun e => match e with
                      | backend_init _ _ _ _ _ => true
                      | _ => false
                      end) t).

(** The arguments [init_camera] passes to the backend's [init]: the
    configured device unless it is empty, and a configured width or
    height unless it is zero. *)
Definition resolved_device (w : world) : option string :=
  if String.eqb (device (g_settings w)) "" then None
  else Some (device (g_settings w)).

Definition resolved_width (w : world) : Z :=
  if width (g_settings w) =? 0 then cb_width (callbacks w)
  else width (g_settings w).

Definition resolved_height (w : world) : Z :=
  if height (g_settings w) =? 0 then cb_height (callbacks w)
  else height (g_settings w).

Definition log_if (b : bool) (e : event) (w : world) : world :=
  if b then log e w else w.

(** No registered descriptor carries the name. *)
Definition unmatched (B : build) (K : backends) (name : string) : Prop :=
  forall d, In d (registered B K) -> ident d <> name.

(** The diagnostic of [find_camera_driver] for a name it cannot find. *)
Definition not_found_line (name : string) : event :=
  RARCH_ERR ("Couldn't find any camera driver named " ++ dquote
             ++ name ++ dquote ++ nl).

Definition available_header : event :=
  RARCH_LOG_OUTPUT ("Available camera drivers are:" ++ nl).

Definition default_warning : event :=
  RARCH_WARN ("Going to default to first camera driver..." ++ nl).

Definition init_failed_line : event :=
  RARCH_ERR ("Failed to initialize camera driver. "
             ++ "Will continue without camera." ++ nl).

Definition disabled_message : string * Z * Z :=
  (("Camera is explicitly disabled." ++ nl)%string, 1, 180).

(** The line [find_camera_driver] prints for a descriptor. *)
Definition available_line (d : camera_driver_t) : event :=
  RARCH_LOG_OUTPUT (tab ++ ident d ++ nl).

(** The bytes [config_get_camera_driver_options] allots: every name and
    one more byte each. *)
Definition names_size (l : list string) : Z :=
  fold_right (fun s acc => Z.of_nat (String.length s) + 1 + acc) 0 l.

(** Several events logged in order. *)
Definition log_all (es : list event) (w : world) : world :=
  fold_left (fun w e => log e w) es w.

End Camera.

(* ================================================================== *)
(** ** Sample configurations, used to run the definitions *)

Module Samples.
Import Camera.

Definition null_driver : camera_driver_t :=
  {| init := fun _ _ _ _ => Some 1;
     free := true;
     start := Some (fun _ => true);
     stop := true;
     poll := true;
     ident := "null" |}.

(** A backend whose device cannot be opened. *)
Definition v4l2_busy : camera_driver_t :=
  {| init := fun _ _ _ _ => None;
     free := true;
     start := Some (fun _ => true);
     stop := true;
     poll := true;
     ident := "video4linux2" |}.

Definition v4l2_ready : camera_driver_t :=
  {| init := fun _ _ w h => Some (w * 10000 + h);
     free := true;
     start := Some (fun data => 0 <? data);
     stop := true;
     poll := true;
     ident := "video4linux2" |}.

Definition named (id : string) : camera_driver_t :=
  {| init := fun _ _ _ _ => Some 7;
     free := true;
     start := None;
     stop := false;
     poll := false;
     ident := id |}.

Definition linux_build : build :=
  {| HAVE_V4L2 := true; EMSCRIPTEN := false; ANDROID := false;
     APPLE := false |}.

Definition backends_with (v4l2 : camera_driver_t) : backends :=
  {| camera_v4l2 := v4l2;
     camera_rwebcam := named "rwebcam";
     camera_android := named "android";
     camera_apple := named "avfoundation";
     camera_null := null_driver |}.

Definition core_callbacks : camera_callback :=
  {| caps := 1; cb_width := 640; cb_height := 480;
     initialized := true; deinitialized := true |}.

Definition settings_named (name : string) (allowed : bool)
    : camera_settings :=
  {| driver := name; device := ""; allow := allowed;
     width := 0; height := 0 |}.

(** The world at start-up: nothing selected, no handle. *)
Definition fresh (name : string) (allowed : bool) : world :=
  {| camera := None; camera_data := None; camera_active := true;
     g_settings := settings_named name allowed;
     callbacks := core_callbacks; msg_queue := []; trace := [] |}.

(** A world in which the v4l2 backend is live with handle 42. *)
Definition live (allowed : bool) : world :=
  {| camera := Some v4l2_ready; camera_data := Some 42;
     camera_active := true;
     g_settings := settings_named "video4linux2" allowed;
     callbacks := core_callbacks; msg_queue := []; trace := [] |}.

(** A clock that advances by three seconds at every reading. *)
Definition clock_3s (k : nat) : GL.timeval :=
  {| GL.tv_sec := 1000 + 3 * Z.of_nat k; GL.tv_usec := 250000 |}.

Definition gl_env : GL.env :=
  {| GL.HAVE_CG := true; GL.clock := clock_3s; GL.malloc_ok := true;
     GL.open_window_res := 1; GL.gen_texture := 1;
     GL.cg_context_ok := true; GL.cg_profiles_ok := true;
     GL.cg_programs_ok := true; GL.cg_param_video_size := 11;
     GL.cg_param_texture_size := 12; GL.cg_param_mvp := 13 |}.

Definition video_vsync : GL.video_info_t :=
  {| GL.vi_width := 800; GL.vi_height := 600; GL.vi_fullscreen := false;
     GL.vi_vsync := true; GL.vi_force_aspect := true;
     GL.vi_smooth := false |}.

Definition blank_frame : GL.submission :=
  {| GL.sub_frame := []; GL.sub_width := 256; GL.sub_height := 224;
     GL.sub_pitch := 2048 |}.

End Samples.

(* ================================================================== *)
(** ** gl.c: the GLFW input driver *)

Module Input.
Import IEEE.

(** [struct snes_keybind] of driver.h: the libsnes button, the keyboard
    key and the joypad button bound to it.  An array of bindings ends
    with an entry whose [id] is -1. *)
Record snes_keybind := { id : Z; key : Z; joykey : Z }.

(** The constants the code takes from GL/glfw.h, libsnes.hpp and
    driver.h. *)
Record constants := {
  GLFW_JOYSTICK_1 : Z;
  GLFW_JOYSTICK_LAST : Z;
  GL_TRUE : Z;
  GLFW_PRESS : Z;
  SNES_DEVICE_JOYPAD : Z;
  SNES_PORT_1 : Z;
  SNES_FAST_FORWARD_KEY : Z
}.

Definition BUTTONS_MAX : Z := 128.

(** What GLFW reports while one function runs:
    [glfwGetJoystickParam(i, GLFW_PRESENT)],
    [glfwGetJoystickParam(i, GLFW_BUTTONS)], the button states
    [glfwGetJoystickButtons] has for a joystick, and [glfwGetKey]. *)
Record env := {
  joystick_present : Z -> Z;
  joystick_button_count : Z -> Z;
  joystick_button_states : Z -> list Z;
  key_state : Z -> Z
}.

(** The statics of the input driver, and the arguments of the calls of
    [set_fast_forward_button], oldest first. *)
Record world := {
  joypad_id : list Z;
  joypad_buttons : list Z;
  joypad_inited : bool;
  joypad_count : Z;
  fast_forward : list bool
}.

(** The statics as the C initialisers leave them. *)
Definition initial_world : world :=
  {| joypad_id := [0; 0]; joypad_buttons := [0; 0]; joypad_inited := false;
     joypad_count := 0; fast_forward := [] |}.

(** [a[i]] and [a[i] = v]; an index outside the array is undefined. *)
Definition load (a : list Z) (i : Z) : option Z :=
  if i <? 0 then None else nth_error a (Z.to_nat i).

Fixpoint store_at (a : list Z) (n : nat) (v : Z) : option (list Z) :=
  match a, n with
  | [], _ => None
  | _ :: rest, O => Some (v :: rest)
  | x :: rest, S n =>
      match store_at rest n v with
      | Some rest => Some (x :: rest)
      | None => None
      end
  end.

Definition store (a : list Z) (i : Z) (v : Z) : option (list Z) :=
  if i <? 0 then None else store_at a (Z.to_nat i) v.

Definition set_joypads (ids buttons : list Z) (w : world) : world :=
  {| joypad_id := ids; joypad_buttons := buttons;
     joypad_inited := joypad_inited w; joypad_count := joypad_count w;
     fast_forward := fast_forward w |}.

Definition set_joypad_inited (b : bool) (w : world) : world :=
  {| joypad_id := joypad_id w; joypad_buttons := joypad_buttons w;
     joypad_inited := b; joypad_count := joypad_count w;
     fast_forward := fast_forward w |}.

Definition set_joypad_count (n : Z) (w : world) : world :=
  {| joypad_id := joypad_id w; joypad_buttons := joypad_buttons w;
     joypad_inited := joypad_inited w; joypad_count := n;
     fast_forward := fast_forward w |}.

Definition set_fast_forward_button (pressed : bool) (w : world) : world :=
  {| joypad_id := joypad_id w; joypad_buttons := joypad_buttons w;
     joypad_inited := joypad_inited w; joypad_count := joypad_count w;
     fast_forward := fast_forward w ++ [pressed] |}.

Section Driver.
Variable C : constants.
Variable E : env.

(** The loop of [init_joypads]:
    [for (i = GLFW_JOYSTICK_1; i <= GLFW_JOYSTICK_LAST && count < max_pads;
    i++)].  [None] is a write outside [joypad_id] or [joypad_buttons], or
    the steps running out. *)
Fixpoint init_joypads_loop (max_pads : Z) (fuel : nat) (i count : Z)
    (w : world) : option (Z * world) :=
  if (i <=? GLFW_JOYSTICK_LAST C) && (count <? max_pads) then
    match fuel with
    | O => None
    | S fuel =>
        if joystick_present E i =? GL_TRUE C then
          match store (joypad_id w) count i with
          | None => None
          | Some ids =>
              match store (joypad_buttons w) count
                          (joystick_button_count E i) with
              | None => None
              | Some buttons =>
                  match load buttons count with
                  | None => None
                  | Some n =>
                      let clamped :=
                        if n >? BUTTONS_MAX then store buttons count BUTTONS_MAX
                        else Some buttons in
                      match clamped with
                      | None => None
                      | Some buttons =>
                          init_joypads_loop max_pads fuel (i + 1) (count + 1)
                            (set_joypads ids buttons w)
                      end
                  end
              end
          end
        else init_joypads_loop max_pads fuel (i + 1) count w
    end
  else Some (count, w).

(** [init_joypads(max_pads)]: the loop runs over the joystick numbers
    from [GLFW_JOYSTICK_1] to [GLFW_JOYSTICK_LAST]. *)
Definition init_joypads (max_pads : Z) (w : world) : option (Z * world) :=
  match init_joypads_loop max_pads
          (Z.to_nat (GLFW_JOYSTICK_LAST C - GLFW_JOYSTICK_1 C + 1))
          (GLFW_JOYSTICK_1 C) 0 w with
  | Some (count, w) => Some (count, set_joypad_inited true w)
  | None => None
  end.

(** The local [buttons] after
    [glfwGetJoystickButtons(joy, buttons, numbuttons)]: the first
    [numbuttons] states GLFW has, the rest of the array is left
    unwritten.  When the call is skipped nothing is written. *)
Definition read_buttons (joy numbuttons : Z) : list Z :=
  firstn (Z.to_nat numbuttons) (joystick_button_states E joy).

(** The joypad half of a binding's test:
    [(joypad_count > port_num) &&
     (joykey < joypad_buttons[port_num]) &&
     (buttons[joykey] == GLFW_PRESS)],
    evaluated left to right.  [None] is a read outside an array or of an
    entry of [buttons] that was not written. *)
Definition joypad_pressed (w : world) (port_num : Z) (buttons : list Z)
    (b : snes_keybind) : option bool :=
  if joypad_count w >? port_num then
    match load (joypad_buttons w) port_num with
    | None => None
    | Some n =>
        if joykey b <? n then
          match load buttons (joykey b) with
          | None => None
          | Some s => Some (s =? GLFW_PRESS C)
          end
        else Some false
    end
  else Some false.

(** The first loop of [glfw_input_state], which finds the fast-forward
    binding: [Some None] when the array ends without one,
    [Some (Some pressed)] when [set_fast_forward_button(pressed)] is
    called; [None] when the array has no end or a read is undefined. *)
Fixpoint fast_forward_scan (w : world) (port_num : Z) (buttons : list Z)
    (binds : list snes_keybind) : option (option bool) :=
  match binds with
  | [] => None
  | b :: rest =>
      if id b =? -1 then Some None
      else if id b =? SNES_FAST_FORWARD_KEY C then
        if negb (key_state E (key b) =? 0) then Some (Some true)
        else
          match joypad_pressed w port_num buttons b with
          | None => None
          | Some pressed => Some (Some pressed)
          end
      else fast_forward_scan w port_num buttons rest
  end.

(** The cast [(int)id] of an [unsigned]. *)
Definition int_of_unsigned (u : Z) : Z :=
  if u <=? INT_MAX then u else u - 2 ^ 32.

(** The second loop, which looks for a pressed binding of the button. *)
Fixpoint pressed_scan (w : world) (port_num : Z) (buttons : list Z)
    (button : Z) (binds : list snes_keybind) : option Z :=
  match binds with
  | [] => None
  | b :: rest =>
      if id b =? -1 then Some 0
      else if id b =? int_of_unsigned button then
        if negb (key_state E (key b) =? 0) then Some 1
        else
          match joypad_pressed w port_num buttons b with
          | None => None
          | Some true => Some 1
          | Some false => pressed_scan w port_num buttons button rest
          end
      else pressed_scan w port_num buttons button rest
  end.

(** [glfw_input_state(data, binds, port, device, index, id)]; [binds0]
    and [binds1] are the arrays [binds[0]] and [binds[1]]. *)
Definition glfw_input_state (binds0 binds1 : list snes_keybind)
    (port : bool) (device index button : Z) (w : world)
    : option (Z * world) :=
  if negb (device =? SNES_DEVICE_JOYPAD C) then Some (0, w)
  else
    let inited :=
      if negb (joypad_inited w) then
        match init_joypads 2 w with
        | Some (count, w) => Some (set_joypad_count count w)
        | None => None
        end
      else Some w in
    match inited with
    | None => None
    | Some w =>
        let port_num := if port then 1 else 0 in
        let buttons :=
          if joypad_count w >? port_num then
            match load (joypad_id w) port_num,
                  load (joypad_buttons w) port_num with
            | Some joy, Some n => Some (read_buttons joy n)
            | _, _ => None
            end
          else Some [] in
        match buttons with
        | None => None
        | Some buttons =>
            let snes_keybinds :=
              if Z.b2z port =? SNES_PORT_1 C then binds0 else binds1 in
            match fast_forward_scan w port_num buttons snes_keybinds with
            | None => None
            | Some found =>
                let w :=
                  match found with
                  | Some pressed => set_fast_forward_button pressed w
                  | None => w
                  end in
                match pressed_scan w port_num buttons button
                                   snes_keybinds with
                | None => None
                | Some r => Some (r, w)
                end
            end
        end
    end.

End Driver.

(** The joystick numbers from [i], [n] of them. *)
Definition joysticks_from (i : Z) (n : nat) : list Z :=
  map (fun k => i + Z.of_nat k) (seq 0 n).

(** The joysticks GLFW reports present, in increasing order. *)
Definition present_joysticks (C : constants) (E : env) : list Z :=
  filter (fun j => joystick_present E j =? GL_TRUE C)
    (joysticks_from (GLFW_JOYSTICK_1 C)
       (Z.to_nat (GLFW_JOYSTICK_LAST C - GLFW_JOYSTICK_1 C + 1))).

(** The button count that [init_joypads] records for a joystick. *)
Definition recorded_buttons (E : env) (j : Z) : Z :=
  Z.min (joystick_button_count E j) BUTTONS_MAX.






End Input.

(** Sample input configurations. *)
Module InputSamples.
Import Input.

(** The values of GLFW 2 and libsnes. *)
Definition glfw2 : constants :=
  {| GLFW_JOYSTICK_1 := 0; GLFW_JOYSTICK_LAST := 15; GL_TRUE := 1;
     GLFW_PRESS := 1; SNES_DEVICE_JOYPAD := 1; SNES_PORT_1 := 0;
     SNES_FAST_FORWARD_KEY := 1638 |}.

(** Joysticks 3, 5 and 9 plugged in, with 12, 200 and 8 buttons; button 2
    of joystick 3 held; key 90 held. *)
Definition three_sticks : env :=
  {| joystick_present := fun j =>
       if (j =? 3) || (j =? 5) || (j =? 9) then 1 else 0;
     joystick_button_count := fun j =>
       if j =? 3 then 12 else if j =? 5 then 200 else if j =? 9 then 8 else 0;
     joystick_button_states := fun j =>
       if j =? 3 then [0; 0; 1; 0; 0; 0; 0; 0; 0; 0; 0; 0]
       else if j =? 5 then repeat 0 200
       else if j =? 9 then repeat 0 8
       else [];
     key_state := fun k => if k =? 90 then 1 else 0 |}.

(** No joystick; key 90 held. *)
Definition keyboard_only : env :=
  {| joystick_present := fun _ => 0;
     joystick_button_count := fun _ => 0;
     joystick_button_states := fun _ => [];
     key_state := fun k => if k =? 90 then 1 else 0 |}.

(** Button 4 on key 90 and joypad button 2, button 5 on key 88,
    fast-forward on key 32. *)
Definition binds_a : list snes_keybind :=
  [ {| id := 4; key := 90; joykey := 2 |};
    {| id := 5; key := 88; joykey := 3 |};
    {| id := 1638; key := 32; joykey := 7 |};
    {| id := -1; key := 0; joykey := 0 |} ].

End InputSamples.

(* ================================================================== *)
(** ** The camera registry and the selector *)

Section RegistryFacts.
Import Camera.
Variable B : build.
Variable K : backends.

(** Logging touches the trace and nothing else. *)
Lemma log_all_trace (es : list event) (w : world) :
  log_all es w =
  {| camera := camera w; camera_data := camera_data w;
     camera_active := camera_active w; g_settings := g_settings w;
     callbacks := callbacks w; msg_queue := msg_queue w;
     trace := trace w ++ es |}.
Proof.
  revert w; induction es as [|e es IH]; intros w; simpl.
  - rewrite app_nil_r. now destruct w.
  - unfold log_all in IH. rewrite IH. simpl.
    now rewrite <- app_assoc.
Qed.

Lemma camera_drivers_registered :
  camera_drivers B K = map Some (registered B K) ++ [None].
Proof.
  unfold camera_drivers, registered, compiled_in.
  destruct (HAVE_V4L2 B), (EMSCRIPTEN B), (ANDROID B), (APPLE B);
    reflexivity.
Qed.

Lemma nth_error_before_sentinel (A : Type) (l : list A) (n : nat) :
  match nth_error (map Some l ++ [None]) n with
  | Some d => d
  | None => None
  end = nth_error l n.
Proof.
  revert n; induction l as [|a l IH]; intros [|n]; simpl; trivial.
  now destruct n.
Qed.

Lemma find_handle_registered (n : nat) :
  camera_driver_find_handle B K (Z.of_nat n) = nth_error (registered B K) n.
Proof.
  unfold camera_driver_find_handle.
  destruct (Z.ltb_spec (Z.of_nat n) 0) as [Hneg|_]; [lia|].
  rewrite Nat2Z.id, camera_drivers_registered.
  apply nth_error_before_sentinel.
Qed.

Lemma length_camera_drivers :
  List.length (camera_drivers B K) = S (List.length (registered B K)).
Proof.
  rewrite camera_drivers_registered, length_app, length_map; simpl; lia.
Qed.

Lemma skipn_nth_error (A : Type) (l : list A) (n : nat) (a : A) :
  nth_error l n = Some a -> skipn n l = a :: skipn (S n) l.
Proof.
  revert n; induction l as [|b l IH]; intros [|n] H; simpl in *;
    try discriminate.
  - now inversion H.
  - now apply IH.
Qed.

Lemma skipn_nth_error_none (A : Type) (l : list A) (n : nat) :
  nth_error l n = None -> skipn n l = [].
Proof.
  intros H. apply skipn_all2. now apply nth_error_None.
Qed.

(** The printing loop visits the descriptors from [d] to the sentinel. *)
Lemma list_loop_registered (fuel n : nat) (w : world) :
  (List.length (registered B K) - n < fuel)%nat ->
  list_loop B K fuel (Z.of_nat n) w =
  Some (log_all (map available_line (skipn n (registered B K))) w).
Proof.
  revert n w; induction fuel as [|fuel IH]; intros n w Hfuel; [lia|].
  simpl. unfold camera_driver_find_ident.
  rewrite find_handle_registered.
  destruct (nth_error (registered B K) n) as [d|] eqn:Hn.
  - rewrite (skipn_nth_error _ _ _ _ Hn). simpl.
    replace (Z.of_nat n + 1) with (Z.of_nat (S n)) by lia.
    apply IH.
    assert (n < List.length (registered B K))%nat
      by (apply nth_error_Some; congruence).
    lia.
  - now rewrite (skipn_nth_error_none _ _ _ Hn).
Qed.

(** The loop that collects the identifiers does the same, and counts
    their sizes. *)
Lemma options_loop_registered (fuel n : nat) (len : Z) (acc : list string) :
  (List.length (registered B K) - n < fuel)%nat ->
  options_loop B K fuel (Z.of_nat n) len acc =
  Some (len + names_size (map ident (skipn n (registered B K))),
        acc ++ map ident (skipn n (registered B K))).
Proof.
  revert n len acc; induction fuel as [|fuel IH]; intros n len acc Hfuel;
    [lia|].
  simpl. unfold camera_driver_find_ident.
  rewrite find_handle_registered.
  destruct (nth_error (registered B K) n) as [d|] eqn:Hn.
  - rewrite (skipn_nth_error _ _ _ _ Hn).
    replace (Z.of_nat n + 1) with (Z.of_nat (S n)) by lia.
    assert (n < List.length (registered B K))%nat
      by (apply nth_error_Some; congruence).
    rewrite IH by lia. cbn [map names_size fold_right].
    fold (names_size (map ident (skipn (S n) (registered B K)))).
    rewrite <- app_assoc. cbn [app]. f_equal. f_equal. lia.
  - rewrite (skipn_nth_error_none _ _ _ Hn). cbn.
    now rewrite app_nil_r, Z.add_0_r.
Qed.

Lemma length_append (s1 s2 : string) :
  String.length (s1 ++ s2) = (String.length s1 + String.length s2)%nat.
Proof.
  induction s1 as [|c s1 IH]; simpl; [trivial | now rewrite IH].
Qed.

Lemma substring_whole (s : string) :
  String.substring 0 (String.length s) s = s.
Proof.
  induction s as [|c s IH]; simpl; [trivial | now rewrite IH].
Qed.

(** The joined names fill the allotted bytes but the last. *)
Lemma names_size_concat (l : list string) :
  l <> [] ->
  Z.of_nat (String.length (String.concat "|" l)) = names_size l - 1.
Proof.
  induction l as [|a [|b l] IH]; intros Hne; [congruence| |].
  - cbn. lia.
  - change (String.concat "|" (a :: b :: l))
      with (a ++ "|" ++ String.concat "|" (b :: l))%string.
    rewrite !length_append.
    change (names_size (a :: b :: l))
      with (Z.of_nat (String.length a) + 1 + names_size (b :: l)).
    change (String.length "|") with 1%nat.
    rewrite !Nat2Z.inj_add, IH by discriminate. lia.
Qed.

Lemma string_list_join_concat_fits (l : list string) :
  l <> [] ->
  string_list_join_concat (names_size l) l "|" = String.concat "|" l.
Proof.
  intros Hne. unfold string_list_join_concat.
  rewrite <- names_size_concat, Nat2Z.id by exact Hne.
  apply substring_whole.
Qed.

(** A name that no descriptor carries is not found. *)
Lemma scan_registry_miss (entries : list (option camera_driver_t))
    (i : Z) (name : string) :
  (forall d, In (Some d) entries -> ident d <> name) ->
  scan_registry entries i name = -1.
Proof.
  revert i; induction entries as [|[d|] rest IH]; intros i Hno; simpl;
    trivial.
  destruct (String.eqb_spec name (ident d)) as [Heq|_].
  - exfalso. apply (Hno d); [now left | now symmetry].
  - apply IH. intros d' Hin. apply Hno. now right.
Qed.

(** An index that the scan returns is the index of a descriptor. *)
Lemma scan_registry_hit (entries : list (option camera_driver_t))
    (i : Z) (name : string) :
  0 <= i ->
  scan_registry entries i name = -1 \/
  (i <= scan_registry entries i name /\
   exists d,
     nth_error entries (Z.to_nat (scan_registry entries i name - i))
     = Some (Some d) /\ ident d = name).
Proof.
  revert i; induction entries as [|[d|] rest IH]; intros i Hi; simpl;
    auto.
  destruct (String.eqb_spec name (ident d)) as [Heq|_].
  - right. split; [lia|]. exists d. rewrite Z.sub_diag. simpl. auto.
  - destruct (IH (i + 1)) as [Hm|[Hle [d' [Hn Hid]]]]; [lia|auto|].
    right. split; [lia|]. exists d'. split; trivial.
    replace (Z.to_nat (scan_registry rest (i + 1) name - i))
      with (S (Z.to_nat (scan_registry rest (i + 1) name - (i + 1))))
      by lia.
    exact Hn.
Qed.

Lemma first_handle :
  exists d, camera_driver_find_handle B K 0 = Some d /\
            nth_error (registered B K) 0 = Some d.
Proof.
  change 0 with (Z.of_nat 0). rewrite find_handle_registered.
  unfold registered.
  destruct (compiled_in B K) as [|d l]; simpl; eauto.
Qed.

End RegistryFacts.

Section Selector.
Import Camera.
Variable B : build.
Variable K : backends.

Lemma find_driver_index_camera (name : string) :
  find_driver_index B K "camera_driver" name
  = scan_registry (camera_drivers B K) 0 name.
Proof. reflexivity. Qed.

Lemma unmatched_scan (name : string) :
  unmatched B K name ->
  find_driver_index B K "camera_driver" name = -1.
Proof.
  intros Hno. rewrite find_driver_index_camera.
  apply scan_registry_miss. intros d Hin. apply Hno.
  rewrite camera_drivers_registered in Hin.
  apply in_app_or in Hin. destruct Hin as [Hin|[Hin|[]]];
    [|discriminate].
  apply in_map_iff in Hin. destruct Hin as [d' [Heq Hin]].
  now inversion Heq; subst.
Qed.

(** What the selector does when the index search fails. *)
Lemma find_camera_driver_miss (w : world) (first : camera_driver_t) :
  camera_driver_find_handle B K 0 = Some first ->
  find_driver_index B K "camera_driver" (driver (g_settings w)) = -1 ->
  find_camera_driver B K w =
  Returned
    (set_camera (Some first)
       (log_all
          ([not_found_line (driver (g_settings w)); available_header]
           ++ map available_line (registered B K) ++ [default_warning])
          w)).
Proof.
  intros Hfirst Hno. unfold find_camera_driver.
  rewrite Hno.
  change (-1 >=? 0) with false. lazy beta iota zeta.
  change (list_loop B K (List.length (camera_drivers B K)) 0)
    with (list_loop B K (List.length (camera_drivers B K)) (Z.of_nat 0)).
  rewrite list_loop_registered by (rewrite length_camera_drivers; lia).
  cbn [camera set_camera skipn]. rewrite Hfirst.
  f_equal. unfold log_all. rewrite !fold_left_app. reflexivity.
Qed.

(** The two ways selection ends: the named descriptor, untouched log; or
    the first descriptor after the diagnostic. *)
Lemma find_camera_driver_cases (w : world) :
  (exists d, In d (registered B K) /\
             ident d = driver (g_settings w) /\
             find_camera_driver B K w = Returned (set_camera (Some d) w)) \/
  (exists first,
     camera_driver_find_handle B K 0 = Some first /\
     find_camera_driver B K w =
     Returned
       (set_camera (Some first)
          (log_all
             ([not_found_line (driver (g_settings w)); available_header]
              ++ map available_line (registered B K) ++ [default_warning])
             w))).
Proof.
  destruct (scan_registry_hit (camera_drivers B K) 0
              (driver (g_settings w)) (Z.le_refl 0))
    as [Hm|[Hle [d [Hn Hid]]]].
  - right. destruct (first_handle B K) as [first [Hfirst _]].
    exists first. split; trivial.
    apply find_camera_driver_miss; trivial.
  - left. exists d. rewrite Z.sub_0_r in Hn.
    assert (Hin : In d (registered B K)).
    { apply nth_error_In in Hn. rewrite camera_drivers_registered in Hn.
      apply in_app_or in Hn. destruct Hn as [Hn|[Hn|[]]]; [|discriminate].
      apply in_map_iff in Hn. destruct Hn as [d' [Heq Hin]].
      now inversion Heq; subst. }
    split; trivial. split; trivial.
    unfold find_camera_driver. rewrite find_driver_index_camera.
    destruct (Z.geb_spec (scan_registry (camera_drivers B K) 0
                            (driver (g_settings w))) 0) as [_|Hlt];
      [|lia].
    unfold camera_driver_find_handle.
    destruct (Z.ltb_spec (scan_registry (camera_drivers B K) 0
                            (driver (g_settings w))) 0) as [Hlt|_];
      [lia|].
    now rewrite Hn.
Qed.

Lemma count_backend_init_app (a b : list event) :
  count_backend_init (a ++ b)
  = (count_backend_init a + count_backend_init b)%nat.
Proof.
  unfold count_backend_init. now rewrite filter_app, length_app.
Qed.

Lemma count_backend_init_lines (l : list camera_driver_t) :
  count_backend_init (map available_line l) = O.
Proof.
  induction l as [|d l IH]; trivial.
Qed.

(** Selection calls no backend and leaves the handle alone. *)
Lemma find_camera_driver_quiet (w : world) :
  exists wf drv,
    find_camera_driver B K w = Returned wf /\
    camera wf = Some drv /\
    camera_data wf = camera_data w /\
    g_settings wf = g_settings w /\
    callbacks wf = callbacks w /\
    count_backend_init (trace wf) = count_backend_init (trace w).
Proof.
  destruct (find_camera_driver_cases w)
    as [[d [_ [_ Hf]]]|[first [_ Hf]]]; rewrite Hf.
  - exists (set_camera (Some d) w), d. repeat split.
  - eexists _, first. split; [reflexivity|].
    rewrite log_all_trace. cbn [camera camera_data g_settings callbacks
                                 trace set_camera].
    repeat split.
    rewrite !count_backend_init_app, count_backend_init_lines.
    cbn. lia.
Qed.

(** The first initialisation, written out. *)
Lemma init_camera_fresh (w wf : world) (drv : camera_driver_t) :
  camera_data w = None ->
  find_camera_driver B K w = Returned wf ->
  camera wf = Some drv ->
  init_camera B K w =
  Returned
    (log_if (initialized (callbacks wf)) callback_initialized
       (match init drv (resolved_device wf) (caps (callbacks wf))
                (resolved_width wf) (resolved_height wf) with
        | Some data =>
            set_camera_data (Some data)
              (log (backend_init (ident drv) (resolved_device wf)
                      (caps (callbacks wf)) (resolved_width wf)
                      (resolved_height wf)) wf)
        | None =>
            set_camera_active false
              (log init_failed_line
                 (set_camera_data None
                    (log (backend_init (ident drv) (resolved_device wf)
                            (caps (callbacks wf)) (resolved_width wf)
                            (resolved_height wf)) wf)))
        end)).
Proof.
  intros Hnone Hfind Hdrv. unfold init_camera.
  rewrite Hnone, Hfind, Hdrv.
  cbn [g_settings callbacks log set_camera_data camera_data].
  fold (resolved_device wf) (resolved_width wf) (resolved_height wf).
  destruct (init drv (resolved_device wf) (caps (callbacks wf))
              (resolved_width wf) (resolved_height wf)); reflexivity.
Qed.

End Selector.

(** C6: for every compile-time configuration the registry is a run of
    descriptors, then the null driver, then the sentinel; the identifier
    list that config_get_camera_driver_options collects through
    camera_driver_find_handle and camera_driver_find_ident is the
    identifiers of exactly those descriptors, so it has at least one
    element and its last element is the null driver's identifier; the
    string returned is those identifiers joined by '|'. *)
Theorem camera_registry_ends_with_null
    (B : Camera.build) (K : Camera.backends) :
  (exists pre,
     Camera.camera_drivers B K
     = map Some pre ++ [Some (Camera.camera_null K); None]) /\
  (exists l,
     Camera.camera_driver_options_list B K = Some l /\
     l = map Camera.ident (Camera.registered B K) /\
     (1 <= List.length l)%nat /\
     last l EmptyString = Camera.ident (Camera.camera_null K) /\
     Camera.config_get_camera_driver_options B K
     = Some (String.concat "|" l)).
Proof.
  split.
  - exists (Camera.compiled_in B K).
    rewrite camera_drivers_registered. unfold Camera.registered.
    rewrite map_app, <- app_assoc. reflexivity.
  - unfold Camera.camera_driver_options_list,
           Camera.config_get_camera_driver_options.
    change 0 with (Z.of_nat 0) at 1 3.
    rewrite options_loop_registered
      by (rewrite length_camera_drivers; lia).
    cbn [skipn app Z.add].
    eexists. split; [reflexivity|]. split; [reflexivity|].
    unfold Camera.registered. rewrite map_app, length_app.
    cbn [map List.length].
    split; [lia|]. split; [apply last_last|].
    rewrite string_list_join_concat_fits; trivial.
    intros Hnil. apply (f_equal (@List.length string)) in Hnil.
    rewrite length_app in Hnil. cbn in Hnil. lia.
Qed.

(** C5: when the configured driver name is the identifier of no registered
    descriptor, and likewise when no name is configured (the empty name),
    find_camera_driver logs the error naming the driver, the header, one
    line per registered identifier in registry order and the warning, and
    then selects the descriptor at index 0; both cases select that same
    descriptor, and apart from the selected driver and the log the world is
    left as it was. *)
Theorem find_camera_driver_fallback
    (B : Camera.build) (K : Camera.backends) (w w0 : Camera.world) :
  Camera.unmatched B K (Camera.driver (Camera.g_settings w)) ->
  Camera.driver (Camera.g_settings w0) = EmptyString ->
  Camera.unmatched B K EmptyString ->
  exists first,
    Camera.camera_driver_find_handle B K 0 = Some first /\
    Camera.find_camera_driver B K w =
    Camera.Returned
      (Camera.set_camera (Some first)
         (Camera.log_all
            ([Camera.not_found_line (Camera.driver (Camera.g_settings w));
              Camera.available_header]
             ++ map Camera.available_line (Camera.registered B K)
             ++ [Camera.default_warning]) w)) /\
    Camera.find_camera_driver B K w0 =
    Camera.Returned
      (Camera.set_camera (Some first)
         (Camera.log_all
            ([Camera.not_found_line EmptyString; Camera.available_header]
             ++ map Camera.available_line (Camera.registered B K)
             ++ [Camera.default_warning]) w0)).
Proof.
  intros Hw Hname Hempty.
  destruct (first_handle B K) as [first [Hfirst _]].
  exists first. split; [exact Hfirst|]. split.
  - apply find_camera_driver_miss; trivial. now apply unmatched_scan.
  - rewrite <- Hname in Hempty |- *.
    apply find_camera_driver_miss; trivial. now apply unmatched_scan.
Qed.

Lemma find_camera_driver_fallback_witness :
  exists first,
    Camera.camera_driver_find_handle Samples.linux_build
      (Samples.backends_with Samples.v4l2_ready) 0 = Some first /\
    Camera.find_camera_driver Samples.linux_build
      (Samples.backends_with Samples.v4l2_ready) (Samples.fresh "bogus" true)
    = Camera.Returned
        (Camera.set_camera (Some first)
           (Camera.log_all
              ([Camera.not_found_line "bogus"; Camera.available_header]
               ++ map Camera.available_line
                    (Camera.registered Samples.linux_build
                       (Samples.backends_with Samples.v4l2_ready))
               ++ [Camera.default_warning])
              (Samples.fresh "bogus" true))) /\
    Camera.find_camera_driver Samples.linux_build
      (Samples.backends_with Samples.v4l2_ready) (Samples.fresh "" true)
    = Camera.Returned
        (Camera.set_camera (Some first)
           (Camera.log_all
              ([Camera.not_found_line ""; Camera.available_header]
               ++ map Camera.available_line
                    (Camera.registered Samples.linux_build
                       (Samples.backends_with Samples.v4l2_ready))
               ++ [Camera.default_warning])
              (Samples.fresh "" true))).
Proof.
  apply (find_camera_driver_fallback Samples.linux_build
           (Samples.backends_with Samples.v4l2_ready)
           (Samples.fresh "bogus" true) (Samples.fresh "" true)).
  - intros d [H|[H|[]]]; subst d; simpl; discriminate.
  - reflexivity.
  - intros d [H|[H|[]]]; subst d; simpl; discriminate.
Defined.

(* ================================================================== *)
(** ** The camera lifecycle *)

Section Lifecycle.
Import Camera.
Variable B : build.
Variable K : backends.

Lemma set_camera_data_none (w : world) :
  camera_data w = None -> set_camera_data None w = w.
Proof.
  destruct w; simpl; intros ->; reflexivity.
Qed.

(** A live handle always comes with a selected driver: [init_camera]
    keeps that true, so [uninit_camera] never meets a handle without a
    driver. *)
Lemma init_camera_keeps_driver (w w' : world) :
  (camera_data w <> None -> camera w <> None) ->
  init_camera B K w = Returned w' ->
  camera_data w' <> None -> camera w' <> None.
Proof.
  intros Hinv Hinit.
  destruct (camera_data w) as [data|] eqn:Hdata.
  - unfold init_camera in Hinit. rewrite Hdata in Hinit.
    inversion Hinit; subst w'. rewrite Hdata. intros _. apply Hinv.
    discriminate.
  - destruct (find_camera_driver_quiet B K w)
      as [wf [drv [Hf [Hdrv _]]]].
    rewrite (init_camera_fresh B K w wf drv Hdata Hf Hdrv) in Hinit.
    inversion Hinit; subst w'. intros _.
    unfold log_if.
    destruct (init drv _ _ _ _), (initialized (callbacks wf)); simpl;
      rewrite Hdrv; discriminate.
Qed.

(** Starting, stopping and polling leave the driver and the handle. *)
Lemma driver_camera_start_keeps (w : world) :
  camera (snd (driver_camera_start w)) = camera w /\
  camera_data (snd (driver_camera_start w)) = camera_data w.
Proof.
  unfold driver_camera_start.
  destruct (camera w) as [drv|] eqn:Hc, (camera_data w) as [data|] eqn:Hd;
    try (split; cbn; congruence).
  destruct (start drv) as [f|]; [|split; cbn; congruence].
  destruct (allow (g_settings w)); split; cbn; congruence.
Qed.

Lemma driver_camera_stop_keeps (w : world) :
  camera (driver_camera_stop w) = camera w /\
  camera_data (driver_camera_stop w) = camera_data w.
Proof.
  unfold driver_camera_stop.
  destruct (camera w) as [drv|] eqn:Hc, (camera_data w) as [data|] eqn:Hd;
    try (split; cbn; congruence).
  destruct (stop drv); split; cbn; congruence.
Qed.

Lemma driver_camera_poll_keeps (w : world) :
  camera (driver_camera_poll w) = camera w /\
  camera_data (driver_camera_poll w) = camera_data w.
Proof.
  unfold driver_camera_poll.
  destruct (camera w) as [drv|] eqn:Hc, (camera_data w) as [data|] eqn:Hd;
    try (split; cbn; congruence).
  destruct (poll drv); split; cbn; congruence.
Qed.

(** In every reachable state a live handle has its driver. *)
Lemma reachable_handle_has_driver (w : world) :
  reachable B K w -> camera_data w <> None -> camera w <> None.
Proof.
  induction 1 as [w Hnone|w w' _ IH Hfind|w w' _ IH Hinit|w _ IH|w _ IH
                  |w _ IH|w _ IH].
  - congruence.
  - destruct (find_camera_driver_quiet B K w)
      as [wf [drv [Hf [Hdrv _]]]].
    rewrite Hf in Hfind. inversion Hfind; subst. rewrite Hdrv.
    discriminate.
  - now apply (init_camera_keeps_driver w w').
  - cbn. congruence.
  - destruct (driver_camera_start_keeps w) as [-> ->]. exact IH.
  - destruct (driver_camera_stop_keeps w) as [-> ->]. exact IH.
  - destruct (driver_camera_poll_keeps w) as [-> ->]. exact IH.
Qed.

End Lifecycle.

(** C2: in a state with a live handle, uninit_camera first calls the
    core's deinitialized callback, when there is one, then the driver's
    free on the handle, when the driver has one, and then clears the
    handle, everything else being left as it was; in a state with no
    handle it changes nothing and calls nothing. *)
Theorem uninit_camera_notifies_before_free
    (w : Camera.world) (data : Camera.handle) (drv : Camera.camera_driver_t) :
  Camera.camera_data w = Some data ->
  Camera.camera w = Some drv ->
  Camera.uninit_camera w
  = Camera.set_camera_data None
      (Camera.log_all
         ((if Camera.deinitialized (Camera.callbacks w)
           then [Camera.callback_deinitialized] else [])
          ++ (if Camera.free drv
              then [Camera.backend_free (Camera.ident drv) data] else []))
         w) /\
  Camera.camera_data (Camera.uninit_camera w) = None /\
  (forall w0, Camera.camera_data w0 = None -> Camera.uninit_camera w0 = w0).
Proof.
  intros Hdata Hdrv. split; [|split].
  - unfold Camera.uninit_camera. rewrite Hdata, Hdrv.
    destruct (Camera.deinitialized (Camera.callbacks w)),
             (Camera.free drv); reflexivity.
  - reflexivity.
  - intros w0 Hnone. unfold Camera.uninit_camera. rewrite Hnone.
    now apply set_camera_data_none.
Qed.

Lemma uninit_camera_notifies_before_free_witness :
  Camera.trace (Camera.uninit_camera (Samples.live true))
  = [Camera.callback_deinitialized; Camera.backend_free "video4linux2" 42] /\
  Camera.camera_data (Camera.uninit_camera (Samples.live true)) = None.
Proof.
  destruct (uninit_camera_notifies_before_free (Samples.live true) 42
              Samples.v4l2_ready eq_refl eq_refl) as [Heq [Hcleared _]].
  split; [rewrite Heq; reflexivity | exact Hcleared].
Defined.

(** C3: when a handle is live, init_camera returns at once with the world
    unchanged: no driver is resolved and no backend init is called.  So
    after an init_camera that produced a handle, a second init_camera
    leaves that one handle in place, and the two calls together made
    exactly one call of a backend's init. *)
Theorem init_camera_twice_one_handle
    (B : Camera.build) (K : Camera.backends) (w w1 : Camera.world) :
  Camera.camera_data w = None ->
  Camera.init_camera B K w = Camera.Returned w1 ->
  Camera.camera_data w1 <> None ->
  Camera.init_camera B K w1 = Camera.Returned w1 /\
  Camera.count_backend_init (Camera.trace w1)
  = S (Camera.count_backend_init (Camera.trace w)) /\
  (forall w2 data,
     Camera.camera_data w2 = Some data ->
     Camera.init_camera B K w2 = Camera.Returned w2).
Proof.
  intros Hnone Hinit Hlive.
  assert (Hguard : forall w2 data,
             Camera.camera_data w2 = Some data ->
             Camera.init_camera B K w2 = Camera.Returned w2).
  { intros w2 data H2. unfold Camera.init_camera. now rewrite H2. }
  split; [|split; [|exact Hguard]].
  - destruct (Camera.camera_data w1) as [data|] eqn:H1; [|congruence].
    now apply (Hguard w1 data).
  - destruct (find_camera_driver_quiet B K w)
      as [wf [drv [Hf [Hdrv [_ [_ [_ Hcount]]]]]]].
    rewrite (init_camera_fresh B K w wf drv Hnone Hf Hdrv) in Hinit.
    inversion Hinit; subst w1. clear Hinit.
    unfold Camera.log_if in *.
    destruct (Camera.init drv _ _ _ _);
      destruct (Camera.initialized (Camera.callbacks wf));
      cbn [Camera.trace Camera.log Camera.set_camera_data
           Camera.set_camera_active Camera.camera_data] in *;
      try congruence;
      rewrite !count_backend_init_app, Hcount; cbn; lia.
Qed.

Lemma init_camera_twice_one_handle_witness :
  exists w1,
    Camera.init_camera Samples.linux_build
      (Samples.backends_with Samples.v4l2_ready)
      (Samples.fresh "video4linux2" true) = Camera.Returned w1 /\
    Camera.init_camera Samples.linux_build
      (Samples.backends_with Samples.v4l2_ready) w1 = Camera.Returned w1 /\
    Camera.count_backend_init (Camera.trace w1) = 1%nat.
Proof.
  eexists. split; [reflexivity|].
  destruct (init_camera_twice_one_handle Samples.linux_build
              (Samples.backends_with Samples.v4l2_ready)
              (Samples.fresh "video4linux2" true) _
              eq_refl eq_refl) as [Hsecond [Hcount _]].
  - discriminate.
  - split; [exact Hsecond | exact Hcount].
Defined.

(** C4, the code at a backend whose init fails: with the v4l2 backend
    selected and its device unavailable, init_camera leaves no handle and
    marks the camera inactive, and it still calls the core's initialized
    callback, after the failure is logged. *)
Theorem init_camera_failure_still_notifies :
  exists w',
    Camera.init_camera Samples.linux_build
      (Samples.backends_with Samples.v4l2_busy)
      (Samples.fresh "video4linux2" true) = Camera.Returned w' /\
    Camera.camera_data w' = None /\
    Camera.camera_active w' = false /\
    Camera.trace w'
    = [Camera.backend_init "video4linux2" None 1 640 480;
       Camera.init_failed_line;
       Camera.callback_initialized].
Proof.
  eexists. split; [reflexivity|]. repeat split.
Qed.

(** C7: with a driver selected, a live handle and a start operation,
    driver_camera_start with the allow setting off returns false and
    pushes the message "Camera is explicitly disabled." on the message
    queue, which the failure for want of a handle does not (that one
    returns false and leaves the world as it was); with the setting on it
    returns what the backend's start returns for the handle. *)
Theorem driver_camera_start_policy
    (w : Camera.world) (drv : Camera.camera_driver_t) (data : Camera.handle)
    (start_fn : Camera.handle -> bool) :
  Camera.camera w = Some drv ->
  Camera.camera_data w = Some data ->
  Camera.start drv = Some start_fn ->
  (Camera.allow (Camera.g_settings w) = false ->
   fst (Camera.driver_camera_start w) = false /\
   Camera.msg_queue (snd (Camera.driver_camera_start w))
   = Camera.msg_queue w ++ [Camera.disabled_message] /\
   Camera.trace (snd (Camera.driver_camera_start w)) = Camera.trace w) /\
  (Camera.allow (Camera.g_settings w) = true ->
   Camera.driver_camera_start w
   = (start_fn data,
      Camera.log (Camera.backend_start (Camera.ident drv) data) w)) /\
  (forall w0, Camera.camera_data w0 = None ->
              Camera.driver_camera_start w0 = (false, w0)).
Proof.
  intros Hdrv Hdata Hstart. unfold Camera.driver_camera_start.
  rewrite Hdrv, Hdata, Hstart. split; [|split].
  - intros Hoff. rewrite Hoff. repeat split.
  - intros Hon. now rewrite Hon.
  - intros w0 Hnone. rewrite Hnone. now destruct (Camera.camera w0).
Qed.

Lemma driver_camera_start_policy_witness :
  fst (Camera.driver_camera_start (Samples.live false)) = false /\
  Camera.msg_queue (snd (Camera.driver_camera_start (Samples.live false)))
  = [Camera.disabled_message] /\
  Camera.driver_camera_start (Samples.live true)
  = (true, Camera.log (Camera.backend_start "video4linux2" 42)
             (Samples.live true)).
Proof.
  destruct (driver_camera_start_policy (Samples.live false)
              Samples.v4l2_ready 42 (fun data => 0 <? data)
              eq_refl eq_refl eq_refl) as [Hoff _].
  destruct (driver_camera_start_policy (Samples.live true)
              Samples.v4l2_ready 42 (fun data => 0 <? data)
              eq_refl eq_refl eq_refl) as [_ [Hon _]].
  destruct (Hoff eq_refl) as [Hres [Hqueue _]].
  split; [exact Hres | split; [exact Hqueue | exact (Hon eq_refl)]].
Defined.

(* ================================================================== *)
(** ** The video driver: frame submission and swap interval *)

Section VideoDriver.
Import IEEE GL.
Variable E : env.

Lemma calls_emits (cs : list gl_call) (w : world) :
  calls (emits cs w) = calls w ++ cs.
Proof.
  revert w; induction cs as [|c cs IH]; intros w; simpl.
  - now rewrite app_nil_r.
  - unfold emits in IH. rewrite IH. simpl. now rewrite <- app_assoc.
Qed.

Lemma swap_interval_emit (c : gl_call) (w : world) :
  swap_interval (emit c w) = latest_interval (swap_interval w) c.
Proof.
  unfold swap_interval. simpl. now rewrite fold_left_app.
Qed.

Lemma swap_interval_emits (cs : list gl_call) (w : world) :
  swap_interval (emits cs w) = fold_left latest_interval cs (swap_interval w).
Proof.
  unfold swap_interval. now rewrite calls_emits, fold_left_app.
Qed.

Lemma swap_interval_set_keep_aspect (b : bool) (w : world) :
  swap_interval (set_keep_aspect b w) = swap_interval w.
Proof. reflexivity. Qed.

Lemma swap_interval_set_cg_mvp_matrix (p : Z) (w : world) :
  swap_interval (set_cg_mvp_matrix p w) = swap_interval w.
Proof. reflexivity. Qed.

Ltac trace_interval :=
  repeat first
    [ rewrite swap_interval_emit
    | rewrite swap_interval_emits
    | rewrite swap_interval_set_cg_mvp_matrix
    | rewrite swap_interval_set_keep_aspect
    | progress (cbn [fold_left latest_interval]) ].

(** What [gl_init] leaves behind when it returns a handle. *)
Lemma gl_init_vsync (video : video_info_t) (w0 w : world) (gl : gl_t) :
  gl_init E video w0 = (Some gl, w) ->
  vsync gl = vi_vsync video /\
  swap_interval w = Some (if vi_vsync video then 1 else 0).
Proof.
  unfold gl_init.
  destruct (malloc_ok E); simpl negb; cbv iota; [|discriminate].
  destruct (open_window_res E =? 0); [discriminate|].
  destruct (HAVE_CG E).
  - destruct (cg_context_ok E); simpl negb; cbv iota; [|discriminate].
    destruct (cg_profiles_ok E); simpl negb; cbv iota; [|discriminate].
    destruct (cg_programs_ok E); simpl negb; cbv iota; [|discriminate].
    intros H; inversion H; subst; clear H. split; [reflexivity|].
    destruct (vi_vsync video); trace_interval; reflexivity.
  - intros H; inversion H; subst; clear H. split; [reflexivity|].
    destruct (vi_vsync video); trace_interval; reflexivity.
Qed.

End VideoDriver.

(** C8: on a surface that gl_init created with vsync requested, the swap
    interval is 1; gl_set_nonblock_state with true sets it to 0 and with
    false sets it to 1, in whatever state the calls are made, so true
    followed by false brings back the interval the surface was created
    with.  The gl structure is only read: its vsync field stays as
    gl_init stored it. *)
Theorem gl_set_nonblock_state_restores
    (E : GL.env) (video : GL.video_info_t) (w0 w : GL.world) (gl : GL.gl_t) :
  GL.gl_init E video w0 = (Some gl, w) ->
  GL.vi_vsync video = true ->
  GL.vsync gl = true /\
  GL.swap_interval w = Some 1 /\
  (forall w', GL.swap_interval (GL.gl_set_nonblock_state gl true w')
              = Some 0) /\
  (forall w', GL.swap_interval (GL.gl_set_nonblock_state gl false w')
              = Some 1) /\
  GL.swap_interval
    (GL.gl_set_nonblock_state gl false (GL.gl_set_nonblock_state gl true w))
  = GL.swap_interval w.
Proof.
  intros Hinit Hvsync.
  destruct (gl_init_vsync E video w0 w gl Hinit) as [Hgl Hint].
  rewrite Hvsync in Hgl, Hint.
  unfold GL.gl_set_nonblock_state. rewrite Hgl.
  repeat split; trivial; intros; now rewrite ?swap_interval_emit.
Qed.

Lemma gl_set_nonblock_state_restores_witness :
  exists gl w,
    GL.gl_init Samples.gl_env Samples.video_vsync GL.initial_world
    = (Some gl, w) /\
    GL.swap_interval (GL.gl_set_nonblock_state gl true w) = Some 0 /\
    GL.swap_interval
      (GL.gl_set_nonblock_state gl false
         (GL.gl_set_nonblock_state gl true w)) = Some 1.
Proof.
  eexists. eexists. split; [reflexivity|].
  destruct (gl_set_nonblock_state_restores Samples.gl_env
              Samples.video_vsync GL.initial_world _ _ eq_refl eq_refl)
    as [_ [Hone [Hoff [_ Hback]]]].
  split; [apply Hoff | now rewrite Hback].
Defined.

(** C10: whatever the pixel buffer, the width, the height and the pitch,
    and in whatever state, gl_frame returns true. *)
Theorem gl_frame_returns_true
    (E : GL.env) (gl : GL.gl_t) (frame : list Z) (width height pitch : Z)
    (w : GL.world) :
  fst (GL.gl_frame E gl frame width height pitch w) = true.
Proof.
  reflexivity.
Qed.

(* ================================================================== *)
(** ** FPS accounting over a run of frames *)

Section FpsAccounting.
Import IEEE GL.
Variable E : env.

Lemma wrap_int_succ (z : Z) :
  0 <= z < INT_MAX -> wrap_int (z + 1) = z + 1.
Proof.
  unfold wrap_int, INT_MIN, INT_MAX. intros Hz.
  rewrite Z.mod_small; lia.
Qed.

Lemma published_app (l1 l2 : list gl_call) :
  published (l1 ++ l2) = published l1 ++ published l2.
Proof.
  induction l1 as [|c l1 IH]; trivial.
  destruct c; simpl; trivial.
  destruct t; simpl; trivial. now rewrite IH.
Qed.

Lemma emits_calls (cs : list gl_call) (w : world) :
  emits cs w =
  {| keep_aspect := keep_aspect w; cg_mvp_matrix := cg_mvp_matrix w;
     frames := frames w; tv := tv w; ticks := ticks w;
     calls := calls w ++ cs |}.
Proof.
  revert w; induction cs as [|c cs IH]; intros w; simpl.
  - rewrite app_nil_r. now destruct w.
  - unfold emits in IH. rewrite IH. simpl. now rewrite <- app_assoc.
Qed.

Local Arguments upload_calls : simpl never.
Local Arguments tv_to_fps : simpl never.
Local Arguments elapsed_seconds : simpl never.
Local Arguments window_sample : simpl never.

Lemma submit_unfold (gl : gl_t) (s : submission) (w : world) :
  snd (submit E gl s w)
  = emit glfwSwapBuffers (show_fps E (emits (upload_calls E gl s) w)).
Proof.
  unfold submit, gl_frame, upload_calls.
  destruct (HAVE_CG E); reflexivity.
Qed.

Lemma published_upload_calls (gl : gl_t) (s : submission) :
  published (upload_calls E gl s) = [].
Proof.
  unfold upload_calls. destruct (HAVE_CG E); reflexivity.
Qed.

(** One call of [show_fps], by the value of the frame counter. *)
Lemma show_fps_first (w : world) :
  frames w = 0 ->
  show_fps E w =
  {| keep_aspect := keep_aspect w; cg_mvp_matrix := cg_mvp_matrix w;
     frames := 1; tv := clock E (ticks w); ticks := S (ticks w);
     calls := calls w |}.
Proof.
  destruct w as [ka mvp fr t tk cs]. cbn [frames]. intros ->.
  reflexivity.
Qed.

Lemma show_fps_sample (w : world) :
  0 < frames w < INT_MAX ->
  frames w mod 180 = 0 ->
  show_fps E w =
  {| keep_aspect := keep_aspect w; cg_mvp_matrix := cg_mvp_matrix w;
     frames := frames w + 1; tv := clock E (S (ticks w));
     ticks := S (S (ticks w));
     calls := calls w
              ++ [glfwSetWindowTitle
                    (title_fps (tv_to_fps (tv w) (clock E (ticks w)) 180)
                               (frames w))] |}.
Proof.
  intros Hpos Hmod. unfold show_fps.
  destruct (Z.eqb_spec (frames w) 0) as [H0|_]; [lia|].
  rewrite Z.rem_mod_nonneg, Hmod by lia.
  destruct (Z.gtb_spec (frames w) 0) as [_|Hle]; [|lia].
  cbn -[tv_to_fps wrap_int Z.add]. rewrite wrap_int_succ by lia.
  now destruct (tv w).
Qed.

Lemma show_fps_quiet (w : world) :
  0 < frames w < INT_MAX ->
  frames w mod 180 <> 0 ->
  show_fps E w = set_frames (frames w + 1) w.
Proof.
  intros Hpos Hmod. unfold show_fps.
  destruct (Z.eqb_spec (frames w) 0) as [H0|_]; [lia|].
  rewrite Z.rem_mod_nonneg by lia.
  destruct (Z.eqb_spec (frames w mod 180) 0) as [H0|_]; [lia|].
  cbn -[wrap_int Z.add]. now rewrite wrap_int_succ by lia.
Qed.

(** One frame submission: the counter, and what is published. *)
Lemma submit_step (gl : gl_t) (s : submission) (w : world) :
  0 <= frames w < INT_MAX ->
  frames (snd (submit E gl s w)) = frames w + 1 /\
  published (calls (snd (submit E gl s w)))
  = published (calls w)
    ++ (if (frames w mod 180 =? 0) && (0 <? frames w)
        then [(f32_div (f32_of_int 180)
                 (elapsed_seconds (tv w) (clock E (ticks w))), frames w)]
        else []).
Proof.
  intros Hrange. rewrite submit_unfold, emits_calls.
  destruct (Z.eq_dec (frames w) 0) as [H0|Hn0].
  - rewrite show_fps_first by exact H0. rewrite H0. cbn.
    rewrite !published_app, published_upload_calls. cbn.
    now rewrite !app_nil_r.
  - destruct (Z.eq_dec (frames w mod 180) 0) as [Hm|Hm].
    + rewrite show_fps_sample by (cbn; trivial; lia).
      rewrite Hm. destruct (Z.ltb_spec 0 (frames w)) as [_|Hle]; [|lia].
      cbn -[Z.add tv_to_fps]. split; trivial.
      rewrite !published_app, published_upload_calls. cbn -[tv_to_fps].
      now rewrite !app_nil_r.
    + rewrite show_fps_quiet by (cbn; trivial; lia).
      destruct (Z.eqb_spec (frames w mod 180) 0) as [Hm'|_]; [lia|].
      cbn -[Z.add]. split; trivial.
      rewrite !published_app, published_upload_calls. cbn.
      now rewrite !app_nil_r.
Qed.

Lemma submit_first (gl : gl_t) (s : submission) (w0 : world) :
  frames w0 = 0 -> after_frames E w0 (snd (submit E gl s w0)) 1.
Proof.
  intros H0. rewrite submit_unfold, emits_calls.
  rewrite show_fps_first by exact H0. unfold after_frames. cbn.
  rewrite !published_app, published_upload_calls. cbn.
  rewrite !app_nil_r, Nat.add_0_r. repeat split; trivial; try lia.
  f_equal. lia.
Qed.

Lemma submit_next (gl : gl_t) (s : submission) (w0 w : world) (n : nat) :
  (1 <= n)%nat -> Z.of_nat n < INT_MAX ->
  after_frames E w0 w n ->
  after_frames E w0 (snd (submit E gl s w)) (S n).
Proof.
  intros Hn Hmax [Hframes [Hticks [Htv Hpub]]].
  rewrite submit_unfold, emits_calls. unfold after_frames.
  replace (S n - 1)%nat with n by lia.
  destruct (Z.eq_dec (frames w mod 180) 0) as [Hm|Hm].
  - rewrite show_fps_sample by (cbn; trivial; lia).
    assert (Hq : (n / 180 = S ((n - 1) / 180))%nat
                 /\ (n = 180 * S ((n - 1) / 180))%nat).
    { rewrite Hframes in Hm.
      assert (Hmn : (n mod 180 = 0)%nat)
        by (change 180 with (Z.of_nat 180) in Hm;
            rewrite <- Nat2Z.inj_mod in Hm; lia).
      pose proof (Nat.div_mod_eq n 180) as Hd.
      pose proof (Nat.div_mod_eq (n - 1) 180) as Hd'.
      pose proof (Nat.mod_upper_bound (n - 1) 180) as Hb.
      lia. }
    destruct Hq as [Hq Hn180].
    cbn -[Z.add tv_to_fps Nat.div Nat.mul seq]. rewrite Hq.
    repeat split.
    + lia.
    + lia.
    + f_equal. lia.
    + rewrite !published_app, published_upload_calls.
      cbn -[tv_to_fps Nat.div Nat.mul seq].
      rewrite !app_nil_r, Hpub, seq_S, map_app, <- app_assoc.
      do 2 f_equal. cbn -[tv_to_fps Nat.div Nat.mul Z.mul Z.add].
      unfold window_sample, tv_to_fps. rewrite Htv, Hticks, Hframes.
      replace (ticks w0 + 2 * ((n - 1) / 180) + 1)%nat
        with (ticks w0 + 1 + 2 * ((n - 1) / 180))%nat by lia.
      do 2 f_equal. lia.
  - rewrite show_fps_quiet by (cbn; trivial; lia).
    assert (Hq : (n / 180 = (n - 1) / 180)%nat).
    { rewrite Hframes in Hm.
      assert (Hmn : (n mod 180 <> 0)%nat)
        by (change 180 with (Z.of_nat 180) in Hm;
            rewrite <- Nat2Z.inj_mod in Hm; lia).
      pose proof (Nat.div_mod_eq n 180) as Hd.
      pose proof (Nat.div_mod_eq (n - 1) 180) as Hd'.
      pose proof (Nat.mod_upper_bound (n - 1) 180) as Hb.
      pose proof (Nat.mod_upper_bound n 180) as Hb'.
      lia. }
    cbn -[Z.add Nat.div Nat.mul seq]. rewrite Hq.
    repeat split; trivial.
    + lia.
    + rewrite !published_app, published_upload_calls. cbn.
      now rewrite !app_nil_r.
Qed.

Lemma submit_all_after (gl : gl_t) (ss : list submission) (w0 : world) :
  frames w0 = 0 ->
  Z.of_nat (List.length ss) <= INT_MAX ->
  ss <> [] ->
  after_frames E w0 (submit_all E gl ss w0) (List.length ss).
Proof.
  intros H0. induction ss as [|s ss IH] using rev_ind; [congruence|].
  intros Hlen _. rewrite length_app in *. cbn [List.length] in *.
  unfold submit_all. rewrite fold_left_app. cbn [fold_left].
  fold (submit_all E gl ss w0).
  replace (List.length ss + 1)%nat with (S (List.length ss)) by lia.
  destruct ss as [|s' ss'].
  - now apply submit_first.
  - apply submit_next; [cbn; lia | lia |].
    apply IH; [lia | discriminate].
Qed.

(** With readings a whole number [d] of seconds apart, the time of a
    window is [d] and a sample is 180 over [d]. *)
Lemma binary_round_zero_sign (prec emax : Z) (sx : bool) (m : positive)
    (e : Z) (s : bool) :
  binary_round prec emax sx m e = S754_zero s -> s = sx.
Proof.
  unfold binary_round, binary_round_aux.
  destruct (shl_align m e _) as [mz ez].
  destruct (shr_fexp prec emax (Z.pos mz) ez loc_Exact) as [mrs e'].
  destruct (shr_fexp prec emax _ e' loc_Exact) as [mrs' e''].
  destruct (shr_m mrs'); try discriminate.
  - intros H; now inversion H.
  - destruct (e'' <=? emax - prec); discriminate.
Qed.

Lemma elapsed_whole_seconds (s1 s2 u : Z) :
  s1 <= s2 ->
  elapsed_seconds {| tv_sec := s1; tv_usec := u |}
                  {| tv_sec := s2; tv_usec := u |}
  = f32_of_f64 (f64_of_int (s2 - s1)).
Proof.
  intros Hle.
  unfold elapsed_seconds. cbn [tv_sec tv_usec]. rewrite Z.sub_diag.
  f_equal.
  change (f64_div (f64_of_int 0) dbl_1000000_0) with (S754_zero false).
  unfold f64_add, f64_of_int, binary_normalize.
  destruct (s2 - s1) as [|p|p] eqn:Hd; trivial; [|lia].
  unfold SFadd.
  destruct (binary_round 53 1024 false p 0) as [s| | |] eqn:Hr; trivial.
  now rewrite (binary_round_zero_sign _ _ _ _ _ _ Hr).
Qed.

End FpsAccounting.

(** C9: over any run of frame submissions that starts with the counter at
    zero and is no longer than INT_MAX, the counter ends at the number of
    submissions, each submission adding one; a submission publishes an
    FPS title exactly when the counter it finds is a positive multiple of
    180, and the value published is 180 divided by the seconds between
    the clock reading that opened the sample window (stored in tv) and the
    reading just taken; so the titles published by the whole run are the
    samples of the windows 0, 1, ... in order, printed with the frame
    counts 180, 360, ...  For a clock that advances by d whole seconds
    from one reading to the next every sample is 180 / d. *)
Theorem fps_published_every_180_frames
    (E : GL.env) (gl : GL.gl_t) (ss : list GL.submission) (w0 : GL.world) :
  GL.frames w0 = 0 ->
  Z.of_nat (List.length ss) <= IEEE.INT_MAX ->
  GL.frames (GL.submit_all E gl ss w0) = Z.of_nat (List.length ss) /\
  GL.published (GL.calls (GL.submit_all E gl ss w0))
  = GL.published (GL.calls w0)
    ++ map (GL.window_sample E (GL.ticks w0))
           (seq 0 ((List.length ss - 1) / 180)) /\
  (forall s w,
     0 <= GL.frames w < IEEE.INT_MAX ->
     GL.frames (snd (GL.submit E gl s w)) = GL.frames w + 1 /\
     GL.published (GL.calls (snd (GL.submit E gl s w)))
     = GL.published (GL.calls w)
       ++ (if (GL.frames w mod 180 =? 0) && (0 <? GL.frames w)
           then [(IEEE.f32_div (IEEE.f32_of_int 180)
                    (GL.elapsed_seconds (GL.tv w) (GL.clock E (GL.ticks w))),
                  GL.frames w)]
           else [])) /\
  (forall s0 u d,
     0 <= d ->
     (forall k, GL.clock E k
                = {| GL.tv_sec := s0 + d * Z.of_nat k; GL.tv_usec := u |}) ->
     forall t0 j,
       GL.window_sample E t0 j
       = (IEEE.f32_div (IEEE.f32_of_int 180)
            (IEEE.f32_of_f64 (IEEE.f64_of_int d)),
          180 * (Z.of_nat j + 1))).
Proof.
  intros H0 Hlen. repeat split.
  - destruct ss as [|s ss]; [exact H0|].
    now apply (submit_all_after E gl (s :: ss) w0 H0 Hlen).
  - destruct ss as [|s ss]; [cbn; now rewrite app_nil_r|].
    now apply (submit_all_after E gl (s :: ss) w0 H0 Hlen).
  - now apply submit_step.
  - now apply submit_step.
  - intros s0 u d Hd Hclock t0 j. unfold GL.window_sample.
    rewrite !Hclock, elapsed_whole_seconds by nia.
    replace (s0 + d * Z.of_nat (t0 + 2 * j + 1)
             - (s0 + d * Z.of_nat (t0 + 2 * j))) with d by nia.
    reflexivity.
Qed.

Lemma fps_published_every_180_frames_witness :
  GL.frames
    (GL.submit_all Samples.gl_env
       {| GL.vsync := true; GL.cg_video_size := 11; GL.cg_texture_size := 12;
          GL.texture := 1; GL.tex_filter := GL.GL_NEAREST |}
       (repeat Samples.blank_frame 361) GL.initial_world) = 361 /\
  GL.published
    (GL.calls
       (GL.submit_all Samples.gl_env
          {| GL.vsync := true; GL.cg_video_size := 11;
             GL.cg_texture_size := 12; GL.texture := 1;
             GL.tex_filter := GL.GL_NEAREST |}
          (repeat Samples.blank_frame 361) GL.initial_world))
  = [(IEEE.f32_of_int 60, 180); (IEEE.f32_of_int 60, 360)].
Proof.
  destruct (fps_published_every_180_frames Samples.gl_env
              {| GL.vsync := true; GL.cg_video_size := 11;
                 GL.cg_texture_size := 12; GL.texture := 1;
                 GL.tex_filter := GL.GL_NEAREST |}
              (repeat Samples.blank_frame 361) GL.initial_world)
    as [Hframes [Hpublished _]].
  - reflexivity.
  - vm_compute. discriminate.
  - split; [rewrite Hframes | rewrite Hpublished]; reflexivity.
Defined.

(* ================================================================== *)
(** ** The viewport of resize *)

(** C1, as amended: resize makes its fixed sequence of calls around one
    viewport; with the aspect lock on, the viewport is the one of the
    aspect-lock algorithm in which the device and desired aspects, scaled
    by 1000, are converted to integers by truncation (the cast to int),
    and with the lock off it is the full surface.  With the lock on,
    resize(800, 600) sets the full surface, resize(1920, 600) sets origin
    x = 559 > 0, width 800 < 1920 and the full height, and
    resize(600, 1200) sets origin y = 375, the full width and height
    450. *)
Theorem resize_aspect_lock_truncates :
  (forall width height w,
     GL.resize width height w
     = option_map (fun v => GL.resize_calls v w)
         (if GL.keep_aspect w
          then GL.aspect_lock_viewport IEEE.int_of_float width height
          else Some (GL.glViewport 0 0 width height))) /\
  option_map (fun w => GL.viewports (GL.calls w))
    (GL.resize 800 600 GL.initial_world)
  = Some [GL.glViewport 0 0 800 600] /\
  option_map (fun w => GL.viewports (GL.calls w))
    (GL.resize 1920 600 GL.initial_world)
  = Some [GL.glViewport 559 0 800 600] /\
  option_map (fun w => GL.viewports (GL.calls w))
    (GL.resize 600 1200 GL.initial_world)
  = Some [GL.glViewport 0 375 600 450].
Proof.
  split; [|now vm_compute].
  intros width height [ka mvp fr t tk cs].
  unfold GL.resize, GL.resize_calls, GL.aspect_lock_viewport.
  cbn [GL.keep_aspect GL.emit].
  destruct ka; [|reflexivity].
  destruct (IEEE.int_of_float (IEEE.f32_mul _ _)) as [device|];
    [|reflexivity].
  destruct (IEEE.int_of_float (IEEE.f32_mul _ _)) as [desired|];
    [|reflexivity].
  unfold Z.gtb, Z.ltb.
  destruct (device ?= desired).
  - reflexivity.
  - destruct (IEEE.int_of_float (IEEE.f64_mul (IEEE.f64_of_int height) _));
      [|reflexivity].
    destruct (IEEE.int_of_float (IEEE.f64_mul _ _)); reflexivity.
  - destruct (IEEE.int_of_float (IEEE.f64_mul (IEEE.f64_of_int width) _));
      [|reflexivity].
    destruct (IEEE.int_of_float (IEEE.f64_mul _ _)); reflexivity.
Qed.

(** C1 as stated fails at resize(1067, 800): the device aspect times 1000
    is 1333.75, which truncates to 1333, the desired aspect's value, so
    the code sets the full surface, while rounding gives 1334 > 1333 and
    a letterboxed viewport 1066 wide. *)
Lemma resize_rounding_counterexample :
  option_map (fun w => GL.viewports (GL.calls w))
    (GL.resize 1067 800 GL.initial_world)
  = Some [GL.glViewport 0 0 1067 800] /\
  GL.aspect_lock_viewport IEEE.round_of_float 1067 800
  = Some (GL.glViewport 0 0 1066 800) /\
  GL.resize 1067 800 GL.initial_world
  <> option_map (fun v => GL.resize_calls v GL.initial_world)
       (GL.aspect_lock_viewport IEEE.round_of_float 1067 800).
Proof.
  split; [now vm_compute|]. split; [now vm_compute|].
  vm_compute. discriminate.
Qed.

(* ================================================================== *)
(** ** The input driver: joypad discovery *)

Section JoypadDiscovery.
Import Input.
Variable C : constants.
Variable E : env.

Lemma store_at_spec (a : list Z) (n : nat) (v : Z) :
  (n < List.length a)%nat ->
  exists a',
    store_at a n v = Some a' /\
    List.length a' = List.length a /\
    nth_error a' n = Some v /\
    (forall m, m <> n -> nth_error a' m = nth_error a m).
Proof.
  revert n; induction a as [|x a IH]; intros [|n] Hn; simpl in *; try lia.
  - exists (v :: a). repeat split. intros [|m] Hm; [congruence | trivial].
  - destruct (IH n) as [a' [Hs [Hl [Hv Ho]]]]; [lia|].
    rewrite Hs. exists (x :: a'). simpl. repeat split; auto.
    intros [|m] Hm; trivial. apply Ho. congruence.
Qed.

Lemma store_spec (a : list Z) (n : nat) (v : Z) :
  (n < List.length a)%nat ->
  exists a',
    store a (Z.of_nat n) v = Some a' /\
    List.length a' = List.length a /\
    nth_error a' n = Some v /\
    (forall m, m <> n -> nth_error a' m = nth_error a m).
Proof.
  intros Hn. unfold store.
  destruct (Z.ltb_spec (Z.of_nat n) 0) as [Hneg|_]; [lia|].
  rewrite Nat2Z.id. now apply store_at_spec.
Qed.

Lemma load_nat (a : list Z) (n : nat) :
  load a (Z.of_nat n) = nth_error a n.
Proof.
  unfold load. destruct (Z.ltb_spec (Z.of_nat n) 0) as [Hneg|_]; [lia|].
  now rewrite Nat2Z.id.
Qed.

(** The two stores of a button count leave it clamped. *)
Lemma store_clamped (a : list Z) (n : nat) (j : Z) :
  (n < List.length a)%nat ->
  exists a',
    match store a (Z.of_nat n) (joystick_button_count E j) with
    | None => None
    | Some buttons =>
        match load buttons (Z.of_nat n) with
        | None => None
        | Some b =>
            if b >? BUTTONS_MAX then store buttons (Z.of_nat n) BUTTONS_MAX
            else Some buttons
        end
    end = Some a' /\
    List.length a' = List.length a /\
    nth_error a' n = Some (recorded_buttons E j) /\
    (forall m, m <> n -> nth_error a' m = nth_error a m).
Proof.
  intros Hn.
  destruct (store_spec a n (joystick_button_count E j) Hn)
    as [a1 [Hs [Hl [Hv Ho]]]].
  rewrite Hs, load_nat, Hv. unfold recorded_buttons.
  destruct (Z.gtb_spec (joystick_button_count E j) BUTTONS_MAX) as [Hgt|Hle].
  - destruct (store_spec a1 n BUTTONS_MAX) as [a2 [Hs2 [Hl2 [Hv2 Ho2]]]];
      [lia|].
    exists a2. rewrite Hs2. repeat split; try congruence.
    + rewrite Hv2. f_equal. lia.
    + intros m Hm. rewrite Ho2, Ho; trivial.
  - exists a1. repeat split; trivial. rewrite Hv. f_equal. lia.
Qed.

(** The loop, from joystick [i] with [c] joypads found: it takes the
    first present joysticks among the remaining ones, as many as there is
    room for, and writes each and its clamped button count in the next
    free entries. *)
Lemma init_joypads_loop_spec (max_pads : Z) (fuel : nat) (i : Z) (c : nat)
    (w : world) :
  Z.of_nat fuel = Z.max 0 (GLFW_JOYSTICK_LAST C - i + 1) ->
  max_pads <= Z.of_nat (List.length (joypad_id w)) ->
  List.length (joypad_buttons w) = List.length (joypad_id w) ->
  let taken :=
    firstn (Z.to_nat (max_pads - Z.of_nat c))
      (filter (fun j => joystick_present E j =? GL_TRUE C)
              (joysticks_from i fuel)) in
  exists w',
    init_joypads_loop C E max_pads fuel i (Z.of_nat c) w
    = Some (Z.of_nat (c + List.length taken), w') /\
    joypad_inited w' = joypad_inited w /\
    joypad_count w' = joypad_count w /\
    fast_forward w' = fast_forward w /\
    List.length (joypad_id w') = List.length (joypad_id w) /\
    List.length (joypad_buttons w') = List.length (joypad_buttons w) /\
    (forall n, (n < c)%nat ->
       nth_error (joypad_id w') n = nth_error (joypad_id w) n /\
       nth_error (joypad_buttons w') n = nth_error (joypad_buttons w) n) /\
    (forall k j, nth_error taken k = Some j ->
       nth_error (joypad_id w') (c + k) = Some j /\
       nth_error (joypad_buttons w') (c + k) = Some (recorded_buttons E j)).
Proof.
  revert i c w; induction fuel as [|fuel IH]; intros i c w Hfuel Hmax Hlen.
  - cbn [joysticks_from seq map filter]. rewrite firstn_nil.
    cbn [init_joypads_loop].
    destruct (Z.leb_spec i (GLFW_JOYSTICK_LAST C)) as [Hle|_]; [lia|].
    cbn [andb List.length]. exists w. rewrite Nat.add_0_r.
    repeat split; trivial. all: destruct k; discriminate.
  - assert (Hi : i <= GLFW_JOYSTICK_LAST C) by lia.
    assert (Hcand : joysticks_from i (S fuel)
                    = i :: joysticks_from (i + 1) fuel).
    { unfold joysticks_from. cbn [seq map]. rewrite Z.add_0_r. f_equal.
      rewrite <- seq_shift, map_map. apply map_ext. intros k. lia. }
    rewrite Hcand. cbn [init_joypads_loop filter].
    destruct (Z.leb_spec i (GLFW_JOYSTICK_LAST C)) as [_|Hgt]; [|lia].
    cbn [andb].
    destruct (Z.ltb_spec (Z.of_nat c) max_pads) as [Hroom|Hfull].
    + destruct (joystick_present E i =? GL_TRUE C) eqn:Hpresent.
      * assert (Hc : (c < List.length (joypad_id w))%nat) by lia.
        destruct (store_spec (joypad_id w) c i Hc)
          as [ids [Hs [Hl [Hv Ho]]]].
        rewrite Hs.
        destruct (store_clamped (joypad_buttons w) c i)
          as [bs [Hsb [Hlb [Hvb Hob]]]]; [lia|].
        destruct (store (joypad_buttons w) (Z.of_nat c)
                        (joystick_button_count E i)) as [b1|];
          [|discriminate].
        destruct (load b1 (Z.of_nat c)) as [n1|]; [|discriminate].
        rewrite Hsb.
        replace (Z.of_nat c + 1) with (Z.of_nat (S c)) by lia.
        destruct (IH (i + 1) (S c) (set_joypads ids bs w))
          as [w' [Hloop [Hin [Hcnt [Hff [Hli [Hlb' [Hlow Htaken]]]]]]]];
          [lia | cbn; lia | cbn; lia |].
        exists w'.
        replace (Z.to_nat (max_pads - Z.of_nat c))
          with (S (Z.to_nat (max_pads - Z.of_nat (S c)))) by lia.
        cbn [firstn List.length].
        rewrite Hloop. cbn in Hin, Hcnt, Hff, Hli, Hlb', Hlow.
        split; [do 2 f_equal; lia|].
        repeat split; try congruence.
        -- destruct (Hlow n) as [Hn1 _]; [lia|]. rewrite Hn1.
           apply Ho. lia.
        -- destruct (Hlow n) as [_ Hn2]; [lia|]. rewrite Hn2.
           apply Hob. lia.
        -- destruct k as [|k]; cbn in H.
           ++ inversion H; subst j. rewrite Nat.add_0_r.
              destruct (Hlow c) as [Hn1 _]; [lia|]. now rewrite Hn1.
           ++ replace (c + S k)%nat with (S c + k)%nat by lia.
              now apply Htaken.
        -- destruct k as [|k]; cbn in H.
           ++ inversion H; subst j. rewrite Nat.add_0_r.
              destruct (Hlow c) as [_ Hn2]; [lia|]. now rewrite Hn2.
           ++ replace (c + S k)%nat with (S c + k)%nat by lia.
              now apply Htaken.
      * destruct (IH (i + 1) c w)
          as [w' Hspec]; [lia | lia | lia |].
        exists w'. exact Hspec.
    + replace (Z.to_nat (max_pads - Z.of_nat c)) with O by lia.
      cbn [firstn List.length]. exists w. rewrite Nat.add_0_r.
      repeat split; trivial. all: destruct k; discriminate.
Qed.

End JoypadDiscovery.

(** X1: init_joypads(max_pads), for max_pads within the size of the two
    arrays, always returns: the count is the number of joysticks taken,
    which are the first max_pads present joysticks in increasing order
    (fewer when fewer are present); entry k of joypad_id is the k-th of
    them and entry k of joypad_buttons is its button count, never above
    BUTTONS_MAX; joypad_inited is set. *)
Theorem init_joypads_takes_first_present
    (C : Input.constants) (E : Input.env) (max_pads : Z) (w : Input.world) :
  max_pads <= Z.of_nat (List.length (Input.joypad_id w)) ->
  List.length (Input.joypad_buttons w) = List.length (Input.joypad_id w) ->
  exists w',
    Input.init_joypads C E max_pads w
    = Some (Z.of_nat
              (List.length
                 (firstn (Z.to_nat max_pads) (Input.present_joysticks C E))),
            w') /\
    Input.joypad_inited w' = true /\
    Input.joypad_count w' = Input.joypad_count w /\
    List.length (Input.joypad_id w') = List.length (Input.joypad_id w) /\
    List.length (Input.joypad_buttons w')
    = List.length (Input.joypad_buttons w) /\
    (forall k j,
       nth_error (firstn (Z.to_nat max_pads) (Input.present_joysticks C E)) k
       = Some j ->
       Input.load (Input.joypad_id w') (Z.of_nat k) = Some j /\
       Input.load (Input.joypad_buttons w') (Z.of_nat k)
       = Some (Input.recorded_buttons E j) /\
       Input.recorded_buttons E j <= Input.BUTTONS_MAX).
Proof.
  intros Hmax Hlen. unfold Input.init_joypads.
  destruct (init_joypads_loop_spec C E max_pads
              (Z.to_nat (Input.GLFW_JOYSTICK_LAST C
                         - Input.GLFW_JOYSTICK_1 C + 1))
              (Input.GLFW_JOYSTICK_1 C) 0 w)
    as [w' [Hloop [Hin [Hcnt [Hff [Hli [Hlb [_ Htaken]]]]]]]];
    [lia | exact Hmax | exact Hlen |].
  change (Z.of_nat 0) with 0 in Hloop. rewrite Z.sub_0_r in Hloop, Htaken.
  fold (Input.present_joysticks C E) in Hloop, Htaken.
  rewrite Hloop. cbn [Nat.add].
  eexists. split; [reflexivity|]. cbn.
  repeat split; trivial.
  - rewrite load_nat. now apply (Htaken k j).
  - rewrite load_nat. now apply (Htaken k j).
  - unfold Input.recorded_buttons. lia.
Qed.


Lemma init_joypads_takes_first_present_witness :
  exists w',
    Input.init_joypads InputSamples.glfw2 InputSamples.three_sticks 2
      Input.initial_world = Some (2, w') /\
    Input.load (Input.joypad_id w') 1 = Some 5 /\
    Input.load (Input.joypad_buttons w') 1 = Some 128.
Proof.
  destruct (init_joypads_takes_first_present InputSamples.glfw2
              InputSamples.three_sticks 2 Input.initial_world)
    as [w' [Hinit [_ [_ [_ [_ Htaken]]]]]].
  - cbn. lia.
  - reflexivity.
  - exists w'. split; [exact Hinit|].
    destruct (Htaken 1%nat 5 eq_refl) as [Hid [Hb _]].
    split; [exact Hid | exact Hb].
Defined.

(* ================================================================== *)
(** ** The input driver: button queries *)

Section ButtonQueries.
Import Input.
Variable C : constants.
Variable E : env.





(** Whatever the second loop returns is 0 or 1. *)
Lemma pressed_scan_range (w : world) (port_num : Z) (buttons : list Z)
    (button : Z) (binds : list snes_keybind) (r : Z) :
  pressed_scan C E w port_num buttons button binds = Some r ->
  r = 0 \/ r = 1.
Proof.
  induction binds as [|b binds IH]; cbn [pressed_scan]; [discriminate|].
  destruct (id b =? -1); [intros H; inversion H; now left|].
  destruct (id b =? int_of_unsigned button); [|exact IH].
  destruct (negb (key_state E (key b) =? 0));
    [intros H; inversion H; now right|].
  destruct (joypad_pressed C w port_num buttons b) as [[|]|];
    [intros H; inversion H; now right | exact IH | discriminate].
Qed.



(** X3: whenever glfw_input_state returns, it returns 0 or 1.  For a
    device other than the joypad it returns 0 and touches nothing, the
    joypads are not even looked for.  For the joypad device it leaves
    joypad_inited set; the joypads are discovered, by init_joypads(2), on
    the first such query only: when joypad_inited was already set,
    joypad_id, joypad_buttons and joypad_count are left as they were.  A
    query calls set_fast_forward_button at most once. *)
Theorem glfw_input_state_discovers_once (binds0 binds1 : list snes_keybind)
    (port : bool) (device index button r : Z) (w w' : world) :
  glfw_input_state C E binds0 binds1 port device index button w
  = Some (r, w') ->
  (r = 0 \/ r = 1) /\
  (device <> SNES_DEVICE_JOYPAD C -> r = 0 /\ w' = w) /\
  (device = SNES_DEVICE_JOYPAD C -> joypad_inited w' = true) /\
  (joypad_inited w = true ->
   joypad_id w' = joypad_id w /\ joypad_buttons w' = joypad_buttons w /\
   joypad_count w' = joypad_count w) /\
  (device = SNES_DEVICE_JOYPAD C -> joypad_inited w = false ->
   exists count w1,
     init_joypads C E 2 w = Some (count, w1) /\
     joypad_id w' = joypad_id w1 /\ joypad_buttons w' = joypad_buttons w1 /\
     joypad_count w' = count) /\
  (fast_forward w' = fast_forward w \/
   exists pressed, fast_forward w' = fast_forward w ++ [pressed]).
Proof.
  unfold glfw_input_state.
  destruct (Z.eqb_spec device (SNES_DEVICE_JOYPAD C)) as [Hdev|Hdev];
    cbn [negb].
  2: { intros H; inversion H; subst. repeat split; auto; try contradiction. }
  assert (Htail : forall w0,
    match
      (if joypad_count w0 >? (if port then 1 else 0)
       then match load (joypad_id w0) (if port then 1 else 0),
                  load (joypad_buttons w0) (if port then 1 else 0) with
            | Some joy, Some n => Some (read_buttons E joy n)
            | _, _ => None
            end
       else Some [])
    with
    | Some buttons =>
        match fast_forward_scan C E w0 (if port then 1 else 0) buttons
                (if Z.b2z port =? SNES_PORT_1 C then binds0 else binds1) with
        | Some found =>
            match pressed_scan C E
                    match found with
                    | Some pressed => set_fast_forward_button pressed w0
                    | None => w0
                    end (if port then 1 else 0) buttons button
                    (if Z.b2z port =? SNES_PORT_1 C then binds0 else binds1)
            with
            | Some r => Some (r, match found with
                                 | Some pressed =>
                                     set_fast_forward_button pressed w0
                                 | None => w0
                                 end)
            | None => None
            end
        | None => None
        end
    | None => None
    end = Some (r, w') ->
    (r = 0 \/ r = 1) /\
    joypad_id w' = joypad_id w0 /\ joypad_buttons w' = joypad_buttons w0 /\
    joypad_count w' = joypad_count w0 /\
    joypad_inited w' = joypad_inited w0 /\
    (fast_forward w' = fast_forward w0 \/
     exists pressed, fast_forward w' = fast_forward w0 ++ [pressed])).
  { intros w0.
    destruct (if joypad_count w0 >? (if port then 1 else 0) then _ else _)
      as [buttons|]; [|discriminate].
    destruct (fast_forward_scan C E w0 _ buttons _) as [found|];
      [|discriminate].
    destruct (pressed_scan C E _ _ buttons button _) as [r0|] eqn:Hscan;
      [|discriminate].
    intros H; inversion H; subst r0 w'. clear H.
    split; [exact (pressed_scan_range _ _ _ _ _ _ Hscan)|].
    destruct found as [pressed|]; cbn; repeat split; eauto. }
  destruct (joypad_inited w) eqn:Hin; cbn [negb].
  - intros H. destruct (Htail w H) as [Hr [Hi [Hb [Hc [Hinit Hff]]]]].
    repeat split; auto; try congruence.
  - destruct (init_joypads C E 2 w) as [[count w1]|] eqn:Hinit;
      [|discriminate].
    intros H.
    destruct (Htail (set_joypad_count count w1) H)
      as [Hr [Hi [Hb [Hc [Hinit' Hff]]]]].
    cbn in Hi, Hb, Hc, Hinit', Hff.
    assert (Hw1 : joypad_inited w1 = true /\ fast_forward w1 = fast_forward w).
    { unfold init_joypads in Hinit.
      destruct (init_joypads_loop C E 2 _ _ 0 w) as [[c0 w0]|] eqn:Hloop;
        [|discriminate].
      inversion Hinit; subst. cbn. split; trivial.
      clear - Hloop. revert Hloop.
      generalize (Z.to_nat (GLFW_JOYSTICK_LAST C - GLFW_JOYSTICK_1 C + 1)).
      generalize (GLFW_JOYSTICK_1 C). generalize 0.
      intros c i fuel. revert c i w.
      induction fuel as [|fuel IH]; intros c i w; cbn [init_joypads_loop].
      - destruct ((i <=? GLFW_JOYSTICK_LAST C) && (c <? 2));
          [discriminate|]. intros H; now inversion H.
      - destruct ((i <=? GLFW_JOYSTICK_LAST C) && (c <? 2));
          [|intros H; now inversion H].
        destruct (joystick_present E i =? GL_TRUE C); [|apply IH].
        destruct (store (joypad_id w) c i) as [ids|]; [|discriminate].
        destruct (store (joypad_buttons w) c _) as [b1|]; [|discriminate].
        destruct (load b1 c) as [n1|]; [|discriminate].
        destruct (if n1 >? BUTTONS_MAX then _ else _) as [b2|];
          [|discriminate].
        intros H. now rewrite (IH _ _ _ H). }
    destruct Hw1 as [Hw1 Hffw1]. rewrite Hffw1 in Hff.
    repeat split; auto; try congruence.
    intros _ _. exists count, w1. auto.
Qed.

End ButtonQueries.


Lemma glfw_input_state_discovers_once_witness :
  exists w',
    Input.glfw_input_state InputSamples.glfw2 InputSamples.three_sticks
      InputSamples.binds_a InputSamples.binds_a false 1 0 4
      Input.initial_world = Some (1, w') /\
    Input.joypad_inited w' = true /\
    Input.joypad_count w' = 2.
Proof.
  eexists. split; [reflexivity|].
  destruct (glfw_input_state_discovers_once InputSamples.glfw2
              InputSamples.three_sticks InputSamples.binds_a
              InputSamples.binds_a false 1 0 4 1 Input.initial_world _
              eq_refl) as [_ [_ [Hinited _]]].
  split; [exact (Hinited eq_refl) | reflexivity].
Defined.

(* ================================================================== *)
(** ** The video driver: creation, release and resizing *)

Section Surface.
Import IEEE GL.
Variable E : env.

Ltac flatten_calls :=
  repeat first
    [ rewrite emits_calls
    | progress cbn [calls emit set_keep_aspect set_cg_mvp_matrix
                    keep_aspect cg_mvp_matrix frames tv ticks fst snd]
    | rewrite <- app_assoc ].

(** The world [gl_init] leaves: the FPS statics are not touched, the
    trace is only extended. *)
Lemma gl_init_world (video : video_info_t) (w : world) :
  frames (snd (gl_init E video w)) = frames w /\
  tv (snd (gl_init E video w)) = tv w /\
  ticks (snd (gl_init E video w)) = ticks w /\
  keep_aspect (snd (gl_init E video w))
  = (if malloc_ok E then vi_force_aspect video else keep_aspect w) /\
  exists added,
    calls (snd (gl_init E video w)) = calls w ++ added /\
    (malloc_ok E = false -> added = []) /\
    (malloc_ok E = true -> open_window_res E = 0 ->
     exists before, added = before ++ [glfwTerminate]) /\
    (malloc_ok E = true -> open_window_res E <> 0 ->
     ~ In glfwTerminate added).
Proof.
  unfold gl_init.
  destruct (malloc_ok E); cbn [negb].
  2: { repeat split. exists []. rewrite app_nil_r.
       repeat split; trivial; discriminate. }
  destruct (Z.eqb_spec (open_window_res E) 0) as [Hwin|Hwin].
  { flatten_calls. repeat split. eexists. split; [reflexivity|].
    repeat split; try discriminate; try contradiction.
    intros _ _. eexists [_; _]. reflexivity. }
  assert (Hno : forall added : list gl_call,
             ~ In glfwTerminate added ->
             (true = false -> added = []) /\
             (true = true -> open_window_res E = 0 ->
              exists before, added = before ++ [glfwTerminate]) /\
             (true = true -> open_window_res E <> 0 ->
              ~ In glfwTerminate added)).
  { intros added Hnot. repeat split; try discriminate; try contradiction.
    intros _ _. exact Hnot. }
  destruct (HAVE_CG E), (cg_context_ok E), (cg_profiles_ok E),
           (cg_programs_ok E), (vi_vsync video); cbn [negb];
    flatten_calls; repeat split;
    (eexists; split; [reflexivity|]; apply Hno; cbn;
     intuition discriminate).
Qed.

(** X4: gl_init returns a handle exactly when malloc succeeds, the window
    opens and, in a build with Cg, the context, the profiles and the two
    programs are obtained; otherwise it returns NULL.  The handle holds
    the vsync request, the texture GL generated and the filter GL_LINEAR
    when smooth was requested, GL_NEAREST otherwise. *)
Theorem gl_init_returns_handle_iff_acquired (video : video_info_t) (w : world) :
  fst (gl_init E video w)
  = if all_acquired E
    then Some {| vsync := vi_vsync video;
                 cg_video_size :=
                   if HAVE_CG E then cg_param_video_size E else 0;
                 cg_texture_size :=
                   if HAVE_CG E then cg_param_texture_size E else 0;
                 texture := gen_texture E;
                 tex_filter :=
                   if vi_smooth video then GL_LINEAR else GL_NEAREST |}
    else None.
Proof.
  unfold gl_init, all_acquired.
  destruct (malloc_ok E); cbn [negb andb]; [|reflexivity].
  destruct (open_window_res E =? 0); cbn [negb andb]; [reflexivity|].
  destruct (HAVE_CG E); cbn [negb orb]; [|reflexivity].
  destruct (cg_context_ok E); cbn [negb andb]; [|reflexivity].
  destruct (cg_profiles_ok E); cbn [negb andb]; [|reflexivity].
  destruct (cg_programs_ok E); reflexivity.
Qed.

(** X7: with the aspect lock on, resize with a zero height has no defined
    result whatever the width: the device aspect is an infinity or a NaN
    and the cast to int of it times 1000 is undefined. *)
Theorem resize_zero_height_undefined (width : Z) (w : world) :
  keep_aspect w = true -> resize width 0 w = None.
Proof.
  intros Hlock. unfold resize. cbn [keep_aspect emit]. rewrite Hlock.
  assert (Hcast : int_of_float
                    (f32_mul (f32_div (f32_of_int width) (f32_of_int 0))
                             (f32_of_int 1000)) = None).
  { change (f32_of_int 0) with (S754_zero false).
    change (f32_of_int 1000) with (S754_finite false 16384000 (-14)).
    unfold f32_div, f32_mul.
    destruct (f32_of_int width) as [s|s| |s m e]; reflexivity. }
  now rewrite Hcast.
Qed.

End Surface.

(** X5: gl_init only extends the trace of library calls.  When malloc
    fails it calls nothing and leaves keep_aspect; otherwise keep_aspect
    becomes the force_aspect request, also when gl_init then fails.  When
    the window does not open the last call is glfwTerminate; once the
    window is open gl_init never calls glfwTerminate, not even when a Cg
    step fails and it returns NULL. *)
Theorem gl_init_terminates_only_without_window
    (E : GL.env) (video : GL.video_info_t) (w : GL.world) :
  GL.keep_aspect (snd (GL.gl_init E video w))
  = (if GL.malloc_ok E then GL.vi_force_aspect video else GL.keep_aspect w) /\
  exists added,
    GL.calls (snd (GL.gl_init E video w)) = GL.calls w ++ added /\
    (GL.malloc_ok E = false -> added = []) /\
    (GL.malloc_ok E = true -> GL.open_window_res E = 0 ->
     exists before, added = before ++ [GL.glfwTerminate]) /\
    (GL.malloc_ok E = true -> GL.open_window_res E <> 0 ->
     ~ In GL.glfwTerminate added).
Proof.
  destruct (gl_init_world E video w) as [_ [_ [_ Hrest]]]. exact Hrest.
Qed.

(** X6: neither gl_init nor gl_free touches the statics of show_fps: the
    frame counter, the stored timestamp and the clock are as before, so
    a surface created after another one was freed goes on counting frames
    where the first one stopped. *)
Theorem fps_statics_survive_surfaces
    (E : GL.env) (video : GL.video_info_t) (gl : GL.gl_t) (w : GL.world) :
  GL.frames (snd (GL.gl_init E video w)) = GL.frames w /\
  GL.tv (snd (GL.gl_init E video w)) = GL.tv w /\
  GL.ticks (snd (GL.gl_init E video w)) = GL.ticks w /\
  GL.frames (GL.gl_free E gl w) = GL.frames w /\
  GL.tv (GL.gl_free E gl w) = GL.tv w /\
  GL.ticks (GL.gl_free E gl w) = GL.ticks w /\
  GL.frames (snd (GL.gl_init E video (GL.gl_free E gl w))) = GL.frames w.
Proof.
  destruct (gl_init_world E video w) as [Hf [Ht [Hk _]]].
  destruct (gl_init_world E video (GL.gl_free E gl w)) as [Hf' _].
  assert (Hfree : GL.frames (GL.gl_free E gl w) = GL.frames w /\
                  GL.tv (GL.gl_free E gl w) = GL.tv w /\
                  GL.ticks (GL.gl_free E gl w) = GL.ticks w)
    by (unfold GL.gl_free; destruct (GL.HAVE_CG E); repeat split).
  destruct Hfree as [Hff [Hft Hfk]].
  repeat split; trivial. now rewrite Hf'.
Qed.

Lemma resize_zero_height_undefined_witness :
  GL.resize 640 0 GL.initial_world = None.
Proof.
  exact (resize_zero_height_undefined 640 GL.initial_world eq_refl).
Defined.

(** X8: after a gl_init that got force_aspect off, resize is defined for
    every width and height, zero and negative ones too, and sets the
    viewport to the whole surface. *)
Theorem resize_unlocked_full_surface
    (E : GL.env) (video : GL.video_info_t) (w0 : GL.world)
    (width height : Z) :
  GL.malloc_ok E = true ->
  GL.vi_force_aspect video = false ->
  GL.resize width height (snd (GL.gl_init E video w0))
  = Some (GL.resize_calls (GL.glViewport 0 0 width height)
            (snd (GL.gl_init E video w0))).
Proof.
  intros Hmalloc Hforce.
  destruct (gl_init_world E video w0) as [_ [_ [_ [Hkeep _]]]].
  rewrite Hmalloc, Hforce in Hkeep.
  unfold GL.resize. cbn [GL.keep_aspect GL.emit]. rewrite Hkeep.
  reflexivity.
Qed.

Lemma resize_unlocked_full_surface_witness :
  option_map (fun w => GL.viewports (GL.calls w))
    (GL.resize 1920 0
       (snd (GL.gl_init Samples.gl_env
               {| GL.vi_width := 800; GL.vi_height := 600;
                  GL.vi_fullscreen := false; GL.vi_vsync := true;
                  GL.vi_force_aspect := false; GL.vi_smooth := false |}
               GL.initial_world)))
  = Some [GL.glViewport 0 0 1920 0].
Proof.
  rewrite (resize_unlocked_full_surface Samples.gl_env
             {| GL.vi_width := 800; GL.vi_height := 600;
                GL.vi_fullscreen := false; GL.vi_vsync := true;
                GL.vi_force_aspect := false; GL.vi_smooth := false |}
             GL.initial_world 1920 0 eq_refl eq_refl).
  reflexivity.
Defined.

(** X9: on a surface that gl_init created without vsync the swap
    interval is 0, and gl_set_nonblock_state makes no call at all,
    whatever the state asked for: the world is left as it is. *)
Theorem gl_set_nonblock_state_without_vsync
    (E : GL.env) (video : GL.video_info_t) (w0 w : GL.world) (gl : GL.gl_t) :
  GL.gl_init E video w0 = (Some gl, w) ->
  GL.vi_vsync video = false ->
  GL.swap_interval w = Some 0 /\
  (forall state w', GL.gl_set_nonblock_state gl state w' = w').
Proof.
  intros Hinit Hvsync.
  destruct (gl_init_vsync E video w0 w gl Hinit) as [Hgl Hint].
  rewrite Hvsync in Hgl, Hint. split; [exact Hint|].
  intros state w'. unfold GL.gl_set_nonblock_state. now rewrite Hgl.
Qed.

Lemma gl_set_nonblock_state_without_vsync_witness :
  exists gl w,
    GL.gl_init Samples.gl_env
      {| GL.vi_width := 800; GL.vi_height := 600;
         GL.vi_fullscreen := false; GL.vi_vsync := false;
         GL.vi_force_aspect := true; GL.vi_smooth := true |}
      GL.initial_world = (Some gl, w) /\
    GL.swap_interval w = Some 0 /\
    GL.gl_set_nonblock_state gl true w = w.
Proof.
  eexists. eexists. split; [reflexivity|].
  destruct (gl_set_nonblock_state_without_vsync Samples.gl_env
              {| GL.vi_width := 800; GL.vi_height := 600;
                 GL.vi_fullscreen := false; GL.vi_vsync := false;
                 GL.vi_force_aspect := true; GL.vi_smooth := true |}
              GL.initial_world _ _ eq_refl eq_refl) as [Hzero Hnothing].
  split; [exact Hzero | apply Hnothing].
Defined.

(* ================================================================== *)
(** ** One frame, call by call *)

Section FrameCalls.
Import IEEE GL.
Variable E : env.

(** What [show_fps] adds to the trace: nothing, or one title. *)
Lemma show_fps_calls (w : world) :
  keep_aspect (show_fps E w) = keep_aspect w /\
  exists title,
    calls (show_fps E w) = calls w ++ title /\
    (title = [] \/
     exists fps, title = [glfwSetWindowTitle (title_fps fps (frames w))]).
Proof.
  unfold show_fps.
  destruct (Z.eqb_spec (frames w) 0) as [H0|Hn0].
  - cbn. rewrite H0. cbn. split; trivial.
    exists []. rewrite app_nil_r. auto.
  - destruct ((Z.rem (frames w) 180 =? 0) && (frames w >? 0)).
    + cbn -[tv_to_fps]. split; trivial. eexists. split; [reflexivity|].
      right. eexists. reflexivity.
    + cbn. split; trivial. exists []. rewrite app_nil_r. auto.
Qed.

Lemma swap_interval_app (w w' : world) (added : list gl_call) :
  calls w' = calls w ++ added ->
  swap_interval w' = fold_left latest_interval added (swap_interval w).
Proof.
  intros H. unfold swap_interval. now rewrite H, fold_left_app.
Qed.

Lemma submit_calls (gl : gl_t) (s : submission) (w : world) :
  keep_aspect (snd (submit E gl s w)) = keep_aspect w /\
  exists title,
    calls (snd (submit E gl s w))
    = calls w ++ upload_calls E gl s ++ title ++ [glfwSwapBuffers] /\
    (title = [] \/
     exists fps, title = [glfwSetWindowTitle (title_fps fps (frames w))]).
Proof.
  rewrite submit_unfold.
  destruct (show_fps_calls (emits (upload_calls E gl s) w))
    as [Hkeep [title [Hcalls Htitle]]].
  assert (Hw : keep_aspect (emits (upload_calls E gl s) w) = keep_aspect w
               /\ frames (emits (upload_calls E gl s) w) = frames w
               /\ calls (emits (upload_calls E gl s) w)
                  = calls w ++ upload_calls E gl s)
    by (rewrite emits_calls; repeat split).
  destruct Hw as [Hk [Hf Hc]]. rewrite Hk in Hkeep.
  rewrite Hf in Htitle. rewrite Hc in Hcalls.
  split; [exact Hkeep|]. exists title. split; [|exact Htitle].
  cbn [calls emit]. rewrite Hcalls.
  now rewrite <- !app_assoc.
Qed.

End FrameCalls.

(** X10: a frame submission adds to the trace, in this order, the clear,
    in a Cg build the two size parameters, the row length (half the
    pitch, rounded down), the texture upload and the draw, then at most
    one window title, and glfwSwapBuffers last.  It sets no viewport and
    no swap interval and leaves the aspect lock as it is. *)
Theorem gl_frame_ends_with_swap
    (E : GL.env) (gl : GL.gl_t) (s : GL.submission) (w : GL.world) :
  (exists title,
     GL.calls (snd (GL.submit E gl s w))
     = GL.calls w ++ GL.upload_calls E gl s ++ title ++ [GL.glfwSwapBuffers]
     /\ (title = [] \/
         exists fps,
           title = [GL.glfwSetWindowTitle (GL.title_fps fps (GL.frames w))]))
  /\ In (GL.glPixelStorei_UNPACK_ROW_LENGTH (GL.sub_pitch s / 2))
        (GL.upload_calls E gl s)
  /\ GL.swap_interval (snd (GL.submit E gl s w)) = GL.swap_interval w
  /\ GL.viewports (GL.calls (snd (GL.submit E gl s w)))
     = GL.viewports (GL.calls w)
  /\ GL.keep_aspect (snd (GL.submit E gl s w)) = GL.keep_aspect w.
Proof.
  destruct (submit_calls E gl s w) as [Hkeep [title [Hcalls Htitle]]].
  split; [exists title; auto|].
  split.
  { unfold GL.upload_calls. rewrite Z.shiftr_div_pow2 by lia.
    change (2 ^ 1) with 2. apply in_or_app. right.
    apply in_or_app. right. now left. }
  split; [|split; [|exact Hkeep]].
  - rewrite (swap_interval_app _ _ _ Hcalls), !fold_left_app.
    unfold GL.upload_calls.
    destruct (GL.HAVE_CG E), Htitle as [->|[fps ->]]; reflexivity.
  - rewrite Hcalls. unfold GL.viewports, GL.upload_calls.
    rewrite !filter_app.
    destruct (GL.HAVE_CG E), Htitle as [->|[fps ->]]; cbn;
      now rewrite app_nil_r.
Qed.

(** X11: over a run of frames that starts with the counter at zero and
    is not empty and no longer than INT_MAX, the clock is read once at
    the first frame and twice at each sample, 1 + 2 * ((n - 1) / 180)
    times for n frames, and at no other frame; the stored timestamp is
    the latest reading. *)
Theorem show_fps_clock_readings
    (E : GL.env) (gl : GL.gl_t) (ss : list GL.submission) (w0 : GL.world) :
  GL.frames w0 = 0 ->
  Z.of_nat (List.length ss) <= IEEE.INT_MAX ->
  ss <> [] ->
  GL.ticks (GL.submit_all E gl ss w0)
  = (GL.ticks w0 + 1 + 2 * ((List.length ss - 1) / 180))%nat /\
  GL.tv (GL.submit_all E gl ss w0)
  = GL.clock E (GL.ticks (GL.submit_all E gl ss w0) - 1).
Proof.
  intros H0 Hlen Hne.
  destruct (submit_all_after E gl ss w0 H0 Hlen Hne)
    as [_ [Hticks [Htv _]]].
  split; [exact Hticks|]. rewrite Htv, Hticks. f_equal. lia.
Qed.

Lemma show_fps_clock_readings_witness :
  GL.ticks
    (GL.submit_all Samples.gl_env
       {| GL.vsync := true; GL.cg_video_size := 11; GL.cg_texture_size := 12;
          GL.texture := 1; GL.tex_filter := GL.GL_NEAREST |}
       (repeat Samples.blank_frame 361) GL.initial_world) = 5%nat.
Proof.
  destruct (show_fps_clock_readings Samples.gl_env
              {| GL.vsync := true; GL.cg_video_size := 11;
                 GL.cg_texture_size := 12; GL.texture := 1;
                 GL.tex_filter := GL.GL_NEAREST |}
              (repeat Samples.blank_frame 361) GL.initial_world)
    as [Hticks _].
  - reflexivity.
  - vm_compute. discriminate.
  - discriminate.
  - rewrite Hticks. reflexivity.
Defined.

(** X12: when the two timestamps are the same, the elapsed time is zero
    and tv_to_fps over 180 frames is the positive infinity: the division
    by zero is a floating-point one. *)
Theorem tv_to_fps_zero_elapsed (t : GL.timeval) :
  GL.elapsed_seconds t t = S754_zero false /\
  GL.tv_to_fps t t 180 = S754_infinity false.
Proof.
  unfold GL.tv_to_fps, GL.elapsed_seconds. rewrite !Z.sub_diag.
  split; reflexivity.
Qed.

(* ================================================================== *)
(** ** The camera registry by index, and the lifecycle composed *)

Section CameraComposition.
Import Camera.
Variable B : build.
Variable K : backends.



(** The descriptor that selection leaves is a registered one. *)
Lemma find_camera_driver_registered (w : world) :
  exists wf drv,
    find_camera_driver B K w = Returned wf /\
    camera wf = Some drv /\ In drv (registered B K) /\
    camera_data wf = camera_data w /\
    camera_active wf = camera_active w /\
    g_settings wf = g_settings w /\
    callbacks wf = callbacks w /\
    msg_queue wf = msg_queue w /\
    backend_inits (trace wf) = backend_inits (trace w).
Proof.
  destruct (find_camera_driver_cases B K w)
    as [[d [Hin [_ Hf]]]|[first [Hfirst Hf]]]; rewrite Hf.
  - exists (set_camera (Some d) w), d. repeat split; trivial.
  - eexists _, first. split; [reflexivity|].
    rewrite log_all_trace.
    cbn [camera camera_data camera_active g_settings callbacks msg_queue
         trace set_camera].
    repeat split.
    + destruct (first_handle B K) as [d [Hd Hn]].
      rewrite Hfirst in Hd. inversion Hd; subst d.
      now apply nth_error_In in Hn.
    + unfold backend_inits. rewrite !filter_app.
      assert (Hlines : forall l,
                 filter (fun e => match e with
                                  | backend_init _ _ _ _ _ => true
                                  | _ => false
                                  end) (map available_line l) = [])
        by (induction l; trivial).
      rewrite Hlines. cbn. now rewrite app_nil_r.
Qed.

(** An initialisation from a state without a handle, whatever the
    outcome of the backend. *)
Lemma init_camera_once (w : world) :
  camera_data w = None ->
  exists w' drv,
    init_camera B K w = Returned w' /\
    camera w' = Some drv /\ In drv (registered B K) /\
    backend_inits (trace w')
    = backend_inits (trace w)
      ++ [backend_init (ident drv) (resolved_device w) (caps (callbacks w))
            (resolved_width w) (resolved_height w)] /\
    camera_data w'
    = init drv (resolved_device w) (caps (callbacks w))
        (resolved_width w) (resolved_height w) /\
    camera_active w'
    = match camera_data w' with
      | Some _ => camera_active w
      | None => false
      end.
Proof.
  intros Hnone.
  destruct (find_camera_driver_registered w)
    as [wf [drv [Hf [Hdrv [Hin [_ [Hact [Hset [Hcb [_ Hinits]]]]]]]]]].
  rewrite (init_camera_fresh B K w wf drv Hnone Hf Hdrv).
  assert (Hargs : resolved_device wf = resolved_device w /\
                  resolved_width wf = resolved_width w /\
                  resolved_height wf = resolved_height w)
    by (unfold resolved_device, resolved_width, resolved_height;
        rewrite Hset, Hcb; auto).
  destruct Hargs as [-> [-> ->]]. rewrite Hcb.
  eexists _, drv. split; [reflexivity|].
  unfold log_if.
  destruct (init drv _ _ _ _) as [data|], (initialized (callbacks w));
    cbn [camera camera_data camera_active trace log set_camera_data
         set_camera_active];
    unfold backend_inits in *; rewrite ?filter_app, Hinits; cbn;
    rewrite ?app_nil_r; auto 10.
Qed.

End CameraComposition.




(** X15: from a state without a handle, init_camera always returns, and
    calls the init of the selected backend exactly once, with the
    configured device (NULL when it is empty), the core's capabilities,
    and the configured width and height, each replaced by the core's when
    it is zero; the handle is what that call returned; camera_active is
    cleared when it returned NULL and kept otherwise.  init_camera does
    not look at camera_active before. *)
Theorem init_camera_calls_backend_once
    (B : Camera.build) (K : Camera.backends) (w : Camera.world) :
  Camera.camera_data w = None ->
  exists w' drv,
    Camera.init_camera B K w = Camera.Returned w' /\
    Camera.camera w' = Some drv /\ In drv (Camera.registered B K) /\
    Camera.backend_inits (Camera.trace w')
    = Camera.backend_inits (Camera.trace w)
      ++ [Camera.backend_init (Camera.ident drv) (Camera.resolved_device w)
            (Camera.caps (Camera.callbacks w))
            (Camera.resolved_width w) (Camera.resolved_height w)] /\
    Camera.camera_data w'
    = Camera.init drv (Camera.resolved_device w)
        (Camera.caps (Camera.callbacks w))
        (Camera.resolved_width w) (Camera.resolved_height w) /\
    Camera.camera_active w'
    = match Camera.camera_data w' with
      | Some _ => Camera.camera_active w
      | None => false
      end.
Proof.
  exact (init_camera_once B K w).
Qed.

Lemma init_camera_calls_backend_once_witness :
  exists w',
    Camera.init_camera Samples.linux_build
      (Samples.backends_with Samples.v4l2_ready)
      {| Camera.camera := None; Camera.camera_data := None;
         Camera.camera_active := false;
         Camera.g_settings :=
           {| Camera.driver := "video4linux2"; Camera.device := "/dev/video1";
              Camera.allow := true; Camera.width := 320;
              Camera.height := 0 |};
         Camera.callbacks := Samples.core_callbacks;
         Camera.msg_queue := []; Camera.trace := [] |}
    = Camera.Returned w' /\
    Camera.backend_inits (Camera.trace w')
    = [Camera.backend_init "video4linux2" (Some "/dev/video1"%string)
         1 320 480].
Proof.
  destruct (init_camera_calls_backend_once Samples.linux_build
              (Samples.backends_with Samples.v4l2_ready)
              {| Camera.camera := None; Camera.camera_data := None;
                 Camera.camera_active := false;
                 Camera.g_settings :=
                   {| Camera.driver := "video4linux2";
                      Camera.device := "/dev/video1";
                      Camera.allow := true; Camera.width := 320;
                      Camera.height := 0 |};
                 Camera.callbacks := Samples.core_callbacks;
                 Camera.msg_queue := []; Camera.trace := [] |} eq_refl)
    as [w' [drv [Hinit [Hcam [_ [Hcalls _]]]]]].
  exists w'. split; [exact Hinit|].
  assert (Hrun : exists w0,
             Camera.init_camera Samples.linux_build
               (Samples.backends_with Samples.v4l2_ready)
               {| Camera.camera := None; Camera.camera_data := None;
                  Camera.camera_active := false;
                  Camera.g_settings :=
                    {| Camera.driver := "video4linux2";
                       Camera.device := "/dev/video1";
                       Camera.allow := true; Camera.width := 320;
                       Camera.height := 0 |};
                  Camera.callbacks := Samples.core_callbacks;
                  Camera.msg_queue := []; Camera.trace := [] |}
             = Camera.Returned w0 /\
             Camera.camera w0 = Some Samples.v4l2_ready)
    by (eexists; split; reflexivity).
  destruct Hrun as [w0 [Hrun Hcam0]].
  rewrite Hinit in Hrun. inversion Hrun; subst w0.
  rewrite Hcam in Hcam0. inversion Hcam0; subst drv.
  rewrite Hcalls. reflexivity.
Defined.

(** X16: after uninit_camera the camera is inert: driver_camera_start
    returns false and pushes no message, even with the allow setting off,
    driver_camera_stop and driver_camera_poll call nothing, and a second
    uninit_camera changes nothing. *)
Theorem camera_inert_after_uninit (w : Camera.world) :
  Camera.driver_camera_start (Camera.uninit_camera w)
  = (false, Camera.uninit_camera w) /\
  Camera.driver_camera_stop (Camera.uninit_camera w) = Camera.uninit_camera w /\
  Camera.driver_camera_poll (Camera.uninit_camera w) = Camera.uninit_camera w /\
  Camera.uninit_camera (Camera.uninit_camera w) = Camera.uninit_camera w.
Proof.
  assert (Hnone : Camera.camera_data (Camera.uninit_camera w) = None)
    by reflexivity.
  unfold Camera.driver_camera_start, Camera.driver_camera_stop,
         Camera.driver_camera_poll.
  rewrite Hnone.
  destruct (Camera.camera (Camera.uninit_camera w)); repeat split;
    unfold Camera.uninit_camera at 1; rewrite Hnone;
    now apply set_camera_data_none.
Qed.

(** X17: releasing makes room for a new initialisation: after an
    init_camera that produced a handle and an uninit_camera, the next
    init_camera returns, having called a backend's init a second time. *)
Theorem init_camera_again_after_uninit
    (B : Camera.build) (K : Camera.backends) (w w1 : Camera.world) :
  Camera.camera_data w = None ->
  Camera.init_camera B K w = Camera.Returned w1 ->
  exists w3,
    Camera.init_camera B K (Camera.uninit_camera w1) = Camera.Returned w3 /\
    Camera.count_backend_init (Camera.trace w3)
    = S (S (Camera.count_backend_init (Camera.trace w))).
Proof.
  intros Hnone Hinit.
  destruct (init_camera_once B K w Hnone)
    as [w1' [drv [Hinit' [_ [_ [Hcalls _]]]]]].
  rewrite Hinit in Hinit'. inversion Hinit'; subst w1'. clear Hinit'.
  destruct (init_camera_once B K (Camera.uninit_camera w1) eq_refl)
    as [w3 [drv3 [Hinit3 [_ [_ [Hcalls3 _]]]]]].
  exists w3. split; [exact Hinit3|].
  assert (Hcount : forall t, Camera.count_backend_init t
                             = List.length (Camera.backend_inits t))
    by reflexivity.
  rewrite !Hcount, Hcalls3.
  assert (Hun : Camera.backend_inits (Camera.trace (Camera.uninit_camera w1))
                = Camera.backend_inits (Camera.trace w1)).
  { unfold Camera.uninit_camera.
    destruct (Camera.camera_data w1), (Camera.camera w1) as [d|]; trivial.
    destruct (Camera.deinitialized (Camera.callbacks w1)), (Camera.free d);
      cbn; unfold Camera.backend_inits; rewrite ?filter_app; cbn;
      now rewrite ?app_nil_r. }
  rewrite Hun, Hcalls, !length_app. cbn. lia.
Qed.

Lemma init_camera_again_after_uninit_witness :
  exists w1 w3,
    Camera.init_camera Samples.linux_build
      (Samples.backends_with Samples.v4l2_ready)
      (Samples.fresh "video4linux2" true) = Camera.Returned w1 /\
    Camera.init_camera Samples.linux_build
      (Samples.backends_with Samples.v4l2_ready) (Camera.uninit_camera w1)
    = Camera.Returned w3 /\
    Camera.count_backend_init (Camera.trace w3) = 2%nat.
Proof.
  eexists.
  destruct (init_camera_again_after_uninit Samples.linux_build
              (Samples.backends_with Samples.v4l2_ready)
              (Samples.fresh "video4linux2" true) _ eq_refl eq_refl)
    as [w3 [Hinit3 Hcount]].
  exists w3. split; [reflexivity|]. split; [exact Hinit3 | exact Hcount].
Defined.

(** X18: the size that config_get_camera_driver_options adds up in its
    loop, one more than the length of each identifier, is exactly the
    length of the identifiers joined by a one-character separator plus
    one for the terminator: the buffer it allocates is filled to the last
    byte and never too small, in every build. *)
Theorem camera_driver_options_buffer_fits
    (B : Camera.build) (K : Camera.backends) :
  exists options_len options_l,
    Camera.options_loop B K (List.length (Camera.camera_drivers B K)) 0 0 []
    = Some (options_len, options_l) /\
    options_l = map Camera.ident (Camera.registered B K) /\
    options_len
    = Z.of_nat (String.length (String.concat "|" options_l)) + 1.
Proof.
  change 0 with (Z.of_nat 0) at 1.
  rewrite options_loop_registered by (rewrite length_camera_drivers; lia).
  cbn [skipn app Z.add].
  eexists _, _. split; [reflexivity|]. split; [reflexivity|].
  rewrite names_size_concat; [lia|].
  unfold Camera.registered. rewrite map_app.
  intros Hnil. apply (f_equal (@List.length string)) in Hnil.
  rewrite length_app in Hnil. cbn in Hnil. lia.
Qed.
